(** * Crypto-conditions: the RSA-SHA-256 and Ed25519 fulfillment types

    A shallow embedding of [src/types/rsa-sha256.js] and
    [src/types/ed25519.js] of five-bells-condition, together with the
    parts of the OER codec, of the fulfillment base class and of the
    signature primitives that these two classes call.

    JavaScript objects are records, [null] fields are [None], a method
    that mutates [this] (or a reader, or a writer) is a computation in a
    state-and-exception monad whose state survives a [throw], as a
    JavaScript object keeps the assignments made before an exception. *)

From Stdlib Require Import String Ascii ZArith NArith List Bool Lia.
From Stdlib.Strings Require Import Byte.
From Bignums Require Import BigN.
Import ListNotations.

Set Implicit Arguments.

(** ** JavaScript values and exceptions *)

(** A Node.js [Buffer]: a sequence of octets. *)
Definition Buffer := list byte.

(** The arguments the public methods receive: the classes test them with
    [Buffer.isBuffer] before use. *)
Inductive JsValue : Type :=
| JsBuffer (b : Buffer)
| JsString (s : string)
| JsNumber (n : Z)
| JsNull
| JsUndefined.

Definition isBuffer (v : JsValue) : bool :=
  match v with JsBuffer _ => true | _ => false end.

(** The exception classes thrown by the two types, and the reader's
    parse error. *)
Inductive Exn : Type :=
| TypeError          (* new TypeError(...) *)
| Error              (* new Error(...) *)
| MissingDataError   (* errors/missing-data-error *)
| ValidationError    (* errors/validation-error *)
| ParseError         (* reader failures *)
| UnsupportedTypeError   (* unknown type ID *)
| ConditionMismatchError (* derived condition differs *)
| TooLargeError.         (* longer than the committed bound *)

Inductive Result (A : Type) : Type :=
| Ok (a : A)
| Throw (e : Exn).
Arguments Ok {A} a.
Arguments Throw {A} e.

Definition isThrow {A} (r : Result A) : bool :=
  match r with Ok _ => false | Throw _ => true end.

(** ** The state-and-exception monad *)

(** [M St A]: a method body run on a mutable object of type [St]; it
    returns a value or throws, and in both cases leaves the object in
    some state. *)
Definition M (St A : Type) : Type := St -> Result A * St.

Definition ret {St A} (a : A) : M St A := fun s => (Ok a, s).

Definition throw {St A} (e : Exn) : M St A := fun s => (Throw e, s).

Definition bind {St A B} (c : M St A) (k : A -> M St B) : M St B :=
  fun s =>
    match c s with
    | (Ok a, s') => k a s'
    | (Throw e, s') => (Throw e, s')
    end.

Definition get {St} : M St St := fun s => (Ok s, s).

Definition put {St} (s : St) : M St unit := fun _ => (Ok tt, s).

(** Lift a pure fallible computation. *)
Definition liftR {St A} (r : Result A) : M St A := fun s => (r, s).

Declare Scope js_scope.
Delimit Scope js_scope with js.
Notation "x <- c ;; k" := (bind c (fun x => k))
  (at level 61, c at next level, right associativity) : js_scope.
Notation "c ;; k" := (bind c (fun _ => k))
  (at level 61, right associativity) : js_scope.
Open Scope js_scope.

(** Run a computation on the first / second component of a pair of
    objects ([this] and a reader). *)
Definition onFst {S1 S2 A} (c : M S1 A) : M (S1 * S2) A :=
  fun s => let '(r, s1) := c (fst s) in (r, (s1, snd s)).

Definition onSnd {S1 S2 A} (c : M S2 A) : M (S1 * S2) A :=
  fun s => let '(r, s2) := c (snd s) in (r, (fst s, s2)).

(** ** Octets *)

Definition byte_of_N (n : N) : byte :=
  match Byte.of_N (n mod 256) with
  | Some b => b
  | None => x00
  end.

Definition isZeroByte (b : byte) : bool := Byte.eqb b x00.

(** ** The OER codec *)

Module Oer.

(** Modelled from the spec: the package [oer-utils] (Writer, Predictor,
    Reader) is not part of the sources; section 3 and section 4.1 of the
    specification describe it.  "VarUInt: unsigned integer encoded as
    big-endian minimum-length bytes, prefixed by its length as a single
    byte <= 0x7F.  Zero encodes as a single zero-length value." *)
Fixpoint be_acc (fuel : nat) (n : N) (acc : Buffer) : Buffer :=
  match fuel with
  | O => acc
  | S fuel' =>
      if (n =? 0)%N then acc
      else be_acc fuel' (n / 256)%N (byte_of_N n :: acc)
  end.

(** Big-endian, minimum-length octets of [n]; zero has no octets. *)
Definition be_bytes (n : N) : Buffer := be_acc (N.to_nat (N.size n)) n [].

Definition be_value (b : Buffer) : N :=
  fold_left (fun acc x => (acc * 256 + Byte.to_N x)%N) b 0%N.

Definition encodeVarUInt (n : N) : Buffer :=
  let v := be_bytes n in byte_of_N (N.of_nat (length v)) :: v.

(** Modelled from the spec: "VarOctetString: an octet string prefixed by
    its length encoded as VarUInt." *)
Definition encodeVarOctetString (b : Buffer) : Buffer :=
  encodeVarUInt (N.of_nat (length b)) ++ b.

(** Number of octets of the minimum-length big-endian form, computed
    from the bit size alone. *)
Definition byteLength (n : N) : N := ((N.size n + 7) / 8)%N.

(** Modelled from the spec: "Three objects share one interface
    {writeVarUInt, writeVarOctetString, writeOctetString(buf, fixedLen)}".
    The fixed-size form carries no length prefix; a buffer whose length
    is not [fixedLen] is refused. *)
Class OerWriter (W : Type) : Type := {
  writeVarUInt : N -> M W unit;
  writeVarOctetString : Buffer -> M W unit;
  writeOctetString : Buffer -> nat -> M W unit
}.

(** Modelled from the spec: "Writer: appends to a growable buffer." *)
Definition Writer := Buffer.

Definition write (b : Buffer) : M Writer unit :=
  fun w => (Ok tt, w ++ b).

#[export] Instance Writer_OerWriter : OerWriter Writer := {
  writeVarUInt n := write (encodeVarUInt n);
  writeVarOctetString b := write (encodeVarOctetString b);
  writeOctetString b fixedLen :=
    if Nat.eqb (length b) fixedLen then write b else throw Error
}.

Definition newWriter : Writer := [].
Definition getBuffer (w : Writer) : Buffer := w.

(** Modelled from the spec: "Predictor: accumulates a length counter
    only; used for calculateMaxFulfillmentLength." *)
Definition Predictor := N.

Definition skip (n : N) : M Predictor unit :=
  fun size => (Ok tt, (size + n)%N).

Definition measureVarUInt (n : N) : N := (1 + byteLength n)%N.

Definition measureVarOctetString (len : N) : N :=
  (measureVarUInt len + len)%N.

#[export] Instance Predictor_OerWriter : OerWriter Predictor := {
  writeVarUInt n := skip (measureVarUInt n);
  writeVarOctetString b := skip (measureVarOctetString (N.of_nat (length b)));
  writeOctetString b fixedLen :=
    if Nat.eqb (length b) fixedLen then skip (N.of_nat fixedLen)
    else throw Error
}.

Definition newPredictor : Predictor := 0%N.
Definition getSize (p : Predictor) : N := p.

(** Modelled from the spec: "The Reader exposes readVarUInt,
    readVarOctetString, readOctetString(fixedLen), readUInt(n).  Readers
    fail with parse-error on truncation, length-prefix > remaining
    buffer, or VarUInt length byte > 0x7F."  The reader is the part of
    the buffer not yet consumed. *)
Definition Reader := Buffer.

Definition read (n : nat) : M Reader Buffer :=
  fun r =>
    if Nat.leb n (length r) then (Ok (firstn n r), skipn n r)
    else (Throw ParseError, r).

Definition readUInt8 : M Reader N :=
  b <- read 1 ;; ret (be_value b).

Definition readUInt (n : nat) : M Reader N :=
  b <- read n ;; ret (be_value b).

Definition readVarUInt : M Reader N :=
  len <- readUInt8 ;;
  if (0x7F <? len)%N then throw ParseError
  else readUInt (N.to_nat len).

Definition readOctetString (fixedLen : nat) : M Reader Buffer :=
  read fixedLen.

Definition readVarOctetString : M Reader Buffer :=
  len <- readVarUInt ;;
  read (N.to_nat len).

Definition fromBuffer (b : Buffer) : Reader := b.

End Oer.
Import Oer.

(** ** RSA-SHA-256 (src/types/rsa-sha256.js) *)

Module RsaSha256.

(** The instance fields set by the constructor. *)
Record t : Type := mk {
  modulus : option Buffer;
  signature : option Buffer
}.

Definition constructor : t := {| modulus := None; signature := None |}.

Definition TYPE_ID : N := 3.
Definition FEATURE_BITMASK : N := 0x11.

Definition hasLeadingZero (m : Buffer) : bool :=
  match m with
  | b :: _ => isZeroByte b
  | [] => false      (* modulus[0] is undefined *)
  end.

Definition lengthOutOfRange (m : Buffer) : bool :=
  (512 <? length m)%nat || (length m <? 128)%nat.

(** [writeCommonHeader (writer)] *)
Definition writeCommonHeader {W} `{OerWriter W} (this : t) : M W unit :=
  match modulus this with
  | None => throw MissingDataError
  | Some m => writeVarOctetString m
  end.

(** [setPublicModulus (modulus)] *)
Definition setPublicModulus (v : JsValue) : M t unit :=
  match v with
  | JsBuffer m =>
      if hasLeadingZero m then throw Error
      else if lengthOutOfRange m then throw Error
      else this <- get ;; put {| modulus := Some m; signature := signature this |}
  | _ => throw TypeError
  end.

(** [setSignature (signature)] *)
Definition setSignature (v : JsValue) : M t unit :=
  match v with
  | JsBuffer s =>
      this <- get ;; put {| modulus := modulus this; signature := Some s |}
  | _ => throw TypeError
  end.

(** [writeHashPayload (hasher)] *)
Definition writeHashPayload {W} `{OerWriter W} (this : t) : M W unit :=
  writeCommonHeader this.

(** [parsePayload (reader)]: the state is [this] and the reader. *)
Definition parsePayload : M (t * Reader) unit :=
  m <- onSnd readVarOctetString ;;
  onFst (setPublicModulus (JsBuffer m)) ;;
  s <- onSnd readVarOctetString ;;
  onFst (setSignature (JsBuffer s)).

(** [writePayload (writer)] *)
Definition writePayload {W} `{OerWriter W} (this : t) : M W unit :=
  match signature this with
  | None => throw MissingDataError
  | Some s => writeCommonHeader this ;; writeVarOctetString s
  end.

(** [calculateMaxFulfillmentLength ()]: runs a fresh predictor. *)
Definition calculateMaxFulfillmentLength (this : t) : Result N :=
  let predictor := newPredictor in
  match modulus this with
  | None => Throw MissingDataError
  | Some m =>
      match (writeCommonHeader this ;; writeVarOctetString m) predictor with
      | (Ok _, predictor') => Ok (getSize predictor')
      | (Throw e, _) => Throw e
      end
  end.

Section Primitives.

(** [rsa.sign(privateKey, message)] and [rsa.verify(modulus, message,
    signature)] of [crypto/rsa], and [pem.modulusFromPrivateKey] of
    [util/pem]: not part of the sources, taken as parameters.  The
    private key is a PEM string; [rsa.verify] receives the two fields
    as they are, [null] included; it may throw, and what it returns is
    used as a truth value. *)
Variable rsa_sign : string -> Buffer -> Result Buffer.
Variable rsa_verify : option Buffer -> Buffer -> option Buffer -> Result bool.
Variable modulusFromPrivateKey : string -> Result Buffer.

(** [sign (message, privateKey)] *)
Definition sign (message : Buffer) (privateKey : string) : M t unit :=
  this <- get ;;
  match modulus this with
  | None =>
      m <- liftR (modulusFromPrivateKey privateKey) ;;
      setPublicModulus (JsBuffer m)
  | Some _ => ret tt
  end ;;
  s <- liftR (rsa_sign privateKey message) ;;
  this <- get ;;
  put {| modulus := modulus this; signature := Some s |}.

(** [validate (message)]: there is no [try] around [rsa.verify], what
    it throws leaves [validate] as it is. *)
Definition validate (message : JsValue) (this : t) : Result bool :=
  match message with
  | JsBuffer msg =>
      match rsa_verify (modulus this) msg (signature this) with
      | Throw e => Throw e
      | Ok pssResult =>
          if negb pssResult then Throw ValidationError
          else Ok true
      end
  | _ => Throw Error
  end.

End Primitives.

(** The payload of a fulfillment, as the base class obtains it: run
    [writePayload] on a fresh writer. *)
Definition serializePayload (this : t) : Result Buffer :=
  match writePayload this newWriter with
  | (Ok _, w) => Ok (getBuffer w)
  | (Throw e, _) => Throw e
  end.

End RsaSha256.

(** ** Ed25519 (src/types/ed25519.js) *)

Module Ed25519.

Record t : Type := mk {
  publicKey : option Buffer;
  signature : option Buffer
}.

Definition constructor : t := {| publicKey := None; signature := None |}.

Definition TYPE_ID : N := 4.
Definition FEATURE_BITMASK : N := 0x20.
Definition PUBKEY_LENGTH : nat := 32.
Definition SIGNATURE_LENGTH : nat := 64.
Definition FULFILLMENT_LENGTH : nat := PUBKEY_LENGTH + SIGNATURE_LENGTH.

(** [setPublicKey (publicKey)] *)
Definition setPublicKey (v : JsValue) : M t unit :=
  match v with
  | JsBuffer k =>
      if negb (length k =? 32)%nat then throw Error
      else this <- get ;; put {| publicKey := Some k; signature := signature this |}
  | _ => throw TypeError
  end.

(** [setSignature (signature)] *)
Definition setSignature (v : JsValue) : M t unit :=
  match v with
  | JsBuffer s =>
      if negb (length s =? 64)%nat then throw Error
      else this <- get ;; put {| publicKey := publicKey this; signature := Some s |}
  | _ => throw TypeError
  end.

(** [generateHash ()] *)
Definition generateHash (this : t) : Result Buffer :=
  match publicKey this with
  | None => Throw MissingDataError
  | Some k => Ok k
  end.

(** [parsePayload (reader)] *)
Definition parsePayload : M (t * Reader) unit :=
  k <- onSnd (readOctetString PUBKEY_LENGTH) ;;
  onFst (setPublicKey (JsBuffer k)) ;;
  s <- onSnd (readOctetString SIGNATURE_LENGTH) ;;
  onFst (setSignature (JsBuffer s)).

(** [writePayload (writer)].  A [null] field reaches the writer, which
    cannot take its length: a [TypeError]. *)
Definition writeField {W} `{OerWriter W} (f : option Buffer) (n : nat)
  : M W unit :=
  match f with
  | None => throw TypeError
  | Some b => writeOctetString b n
  end.

Definition writePayload {W} `{OerWriter W} (this : t) : M W unit :=
  writeField (publicKey this) PUBKEY_LENGTH ;;
  writeField (signature this) SIGNATURE_LENGTH.

(** [calculateMaxFulfillmentLength ()] *)
Definition calculateMaxFulfillmentLength (this : t) : Result N :=
  Ok (N.of_nat FULFILLMENT_LENGTH).

(** A key pair as both libraries return it. *)
Record KeyPair : Type := {
  kp_publicKey : Buffer;
  kp_secretKey : Buffer
}.

(** The optional native module [ed25519]. *)
Record NativeLib : Type := {
  MakeKeypair : Buffer -> KeyPair;
  Sign : Buffer -> KeyPair -> Buffer;
  Verify : Buffer -> option Buffer -> option Buffer -> Result bool
}.

(** The portable module [tweetnacl]: [nacl.sign.keyPair.fromSeed],
    [nacl.sign.detached] and [nacl.sign.detached.verify]. *)
Record NaclLib : Type := {
  fromSeed : Buffer -> KeyPair;
  detached : Buffer -> Buffer -> Buffer;
  detached_verify : Buffer -> option Buffer -> option Buffer -> Result bool
}.

Section Primitives.

(** [ed25519] is [None] when [require('ed25519')] threw. *)
Variable ed25519 : option NativeLib.
Variable nacl : NaclLib.

(** [sign (message, privateKey)] *)
Definition sign (message privateKey : JsValue) : M t unit :=
  match message with
  | JsBuffer msg =>
      match privateKey with
      | JsBuffer seed =>
          if negb (length seed =? 32)%nat then throw Error
          else
            match ed25519 with
            | Some lib =>
                let keyPair := MakeKeypair lib seed in
                setPublicKey (JsBuffer (kp_publicKey keyPair)) ;;
                this <- get ;;
                put {| publicKey := publicKey this;
                       signature := Some (Sign lib msg keyPair) |}
            | None =>
                let keyPair := fromSeed nacl seed in
                setPublicKey (JsBuffer (kp_publicKey keyPair)) ;;
                this <- get ;;
                put {| publicKey := publicKey this;
                       signature :=
                         Some (detached nacl msg (kp_secretKey keyPair)) |}
            end
      | _ => throw TypeError
      end
  | _ => throw MissingDataError
  end.

(** [validate (message)]: [result !== true] also rejects what is not
    the boolean [true]. *)
Definition validate (message : JsValue) (this : t) : Result bool :=
  match message with
  | JsBuffer msg =>
      let result :=
        match ed25519 with
        | Some lib => Verify lib msg (signature this) (publicKey this)
        | None => detached_verify nacl msg (signature this) (publicKey this)
        end in
      match result with
      | Throw e => Throw e
      | Ok true => Ok true
      | Ok false => Throw ValidationError
      end
  | _ => Throw TypeError
  end.

End Primitives.

Definition serializePayload (this : t) : Result Buffer :=
  match writePayload this newWriter with
  | (Ok _, w) => Ok (getBuffer w)
  | (Throw e, _) => Throw e
  end.

End Ed25519.

(** ** Well-formedness of the stored fields *)

(** What [setPublicModulus] accepts: between 128 and 512 octets, the
    first one not zero. *)
Definition ValidModulus (m : Buffer) : Prop :=
  (forall rest, m <> x00 :: rest) /\ 128 <= length m <= 512.

(** Sample field values: a modulus of 128 octets 0x01, signatures of
    128 and of 129 octets, an Ed25519 key and signature. *)
Definition m128 : Buffer := repeat x01 128.
Definition s128 : Buffer := repeat x02 128.
Definition s129 : Buffer := repeat x02 129.
Definition k32 : Buffer := repeat x03 32.
Definition s64 : Buffer := repeat x04 64.

(** ** Sequences of calls on an RSA-SHA-256 fulfillment *)

(** A caller may invoke the populating methods in any order and may
    catch what they throw: the object lives on in the state the call
    left it in. *)
Inductive Call : Type :=
| CallSetPublicModulus (v : JsValue)
| CallSetSignature (v : JsValue)
| CallParsePayload (reader : Reader).

Definition runCall (this : RsaSha256.t) (c : Call) : RsaSha256.t :=
  match c with
  | CallSetPublicModulus v => snd (RsaSha256.setPublicModulus v this)
  | CallSetSignature v => snd (RsaSha256.setSignature v this)
  | CallParsePayload reader => fst (snd (RsaSha256.parsePayload (this, reader)))
  end.

Definition runCalls (calls : list Call) (this : RsaSha256.t) : RsaSha256.t :=
  fold_left runCall calls this.

(** The modulus, when set, is one that [setPublicModulus] accepts. *)
Definition ModulusOk (this : RsaSha256.t) : Prop :=
  forall m, RsaSha256.modulus this = Some m -> ValidModulus m.

(** A computation keeps a property of the object it runs on, whether it
    returns or throws. *)
Definition preserves {St A} (P : St -> Prop) (c : M St A) : Prop :=
  forall s, P s -> P (snd (c s)).

(** ** The RSA signer (crypto/rsa, util/pem) *)

Module RsaCrypto.

(** Modelled from the spec: [crypto/rsa.js] and [util/pem.js] are not
    part of the sources.  Section 4.7: "extract it from the PEM private
    key (BER parse of the RSA private key structure to obtain the n
    integer)"; "compute RSA-PSS signature with SHA-256, MGF1-SHA-256,
    salt length = 32, public exponent e = 65537.  Implementations must
    reject keys with a different exponent."  The BER parser and the PSS
    primitive are black boxes (section 1). *)
Record RsaPrivateKey : Type := {
  key_n : Buffer;   (* modulus, big-endian, no leading zero octet *)
  key_e : N;        (* public exponent *)
  key_d : Buffer    (* private exponent *)
}.

Definition PUBLIC_EXPONENT : N := 65537.

Section Pem.

Variable berParse : string -> Result RsaPrivateKey.
Variable pssSign : RsaPrivateKey -> Buffer -> Buffer.

Definition modulusFromPrivateKey (privateKey : string) : Result Buffer :=
  match berParse privateKey with
  | Ok key => Ok (key_n key)
  | Throw e => Throw e
  end.

Definition sign (privateKey : string) (message : Buffer) : Result Buffer :=
  match berParse privateKey with
  | Ok key =>
      if (key_e key =? PUBLIC_EXPONENT)%N then Ok (pssSign key message)
      else Throw Error
  | Throw e => Throw e
  end.

End Pem.

(** A private key with public exponent 3. *)
Definition key_e3 : RsaPrivateKey :=
  {| key_n := m128; key_e := 3; key_d := m128 |}.

End RsaCrypto.

(** ** SHA-512 *)

Module Sha512.
Local Open Scope Z_scope.

(** 64-bit words are integers in [0, 2^64); sums wrap around. *)
Definition mask64 : Z := Z.ones 64.

Definition add64 (a b : Z) : Z := Z.land (a + b) mask64.

Definition rotr (n x : Z) : Z :=
  Z.lor (Z.shiftr x n) (Z.land (Z.shiftl x (64 - n)) mask64).

Definition shr (n x : Z) : Z := Z.shiftr x n.

Definition not64 (x : Z) : Z := Z.lxor x mask64.

Definition Ch (x y z : Z) : Z := Z.lxor (Z.land x y) (Z.land (not64 x) z).

Definition Maj (x y z : Z) : Z :=
  Z.lxor (Z.lxor (Z.land x y) (Z.land x z)) (Z.land y z).

Definition Sigma0 (x : Z) : Z :=
  Z.lxor (Z.lxor (rotr 28 x) (rotr 34 x)) (rotr 39 x).

Definition Sigma1 (x : Z) : Z :=
  Z.lxor (Z.lxor (rotr 14 x) (rotr 18 x)) (rotr 41 x).

Definition sigma0 (x : Z) : Z :=
  Z.lxor (Z.lxor (rotr 1 x) (rotr 8 x)) (shr 7 x).

Definition sigma1 (x : Z) : Z :=
  Z.lxor (Z.lxor (rotr 19 x) (rotr 61 x)) (shr 6 x).

(** Round constants and initial hash value (FIPS 180-4, 4.2.3, 5.3.5). *)
Definition K : list Z := [
  0x428a2f98d728ae22; 0x7137449123ef65cd; 0xb5c0fbcfec4d3b2f;
  0xe9b5dba58189dbbc; 0x3956c25bf348b538; 0x59f111f1b605d019;
  0x923f82a4af194f9b; 0xab1c5ed5da6d8118; 0xd807aa98a3030242;
  0x12835b0145706fbe; 0x243185be4ee4b28c; 0x550c7dc3d5ffb4e2;
  0x72be5d74f27b896f; 0x80deb1fe3b1696b1; 0x9bdc06a725c71235;
  0xc19bf174cf692694; 0xe49b69c19ef14ad2; 0xefbe4786384f25e3;
  0x0fc19dc68b8cd5b5; 0x240ca1cc77ac9c65; 0x2de92c6f592b0275;
  0x4a7484aa6ea6e483; 0x5cb0a9dcbd41fbd4; 0x76f988da831153b5;
  0x983e5152ee66dfab; 0xa831c66d2db43210; 0xb00327c898fb213f;
  0xbf597fc7beef0ee4; 0xc6e00bf33da88fc2; 0xd5a79147930aa725;
  0x06ca6351e003826f; 0x142929670a0e6e70; 0x27b70a8546d22ffc;
  0x2e1b21385c26c926; 0x4d2c6dfc5ac42aed; 0x53380d139d95b3df;
  0x650a73548baf63de; 0x766a0abb3c77b2a8; 0x81c2c92e47edaee6;
  0x92722c851482353b; 0xa2bfe8a14cf10364; 0xa81a664bbc423001;
  0xc24b8b70d0f89791; 0xc76c51a30654be30; 0xd192e819d6ef5218;
  0xd69906245565a910; 0xf40e35855771202a; 0x106aa07032bbd1b8;
  0x19a4c116b8d2d0c8; 0x1e376c085141ab53; 0x2748774cdf8eeb99;
  0x34b0bcb5e19b48a8; 0x391c0cb3c5c95a63; 0x4ed8aa4ae3418acb;
  0x5b9cca4f7763e373; 0x682e6ff3d6b2b8a3; 0x748f82ee5defb2fc;
  0x78a5636f43172f60; 0x84c87814a1f0ab72; 0x8cc702081a6439ec;
  0x90befffa23631e28; 0xa4506cebde82bde9; 0xbef9a3f7b2c67915;
  0xc67178f2e372532b; 0xca273eceea26619c; 0xd186b8c721c0c207;
  0xeada7dd6cde0eb1e; 0xf57d4f7fee6ed178; 0x06f067aa72176fba;
  0x0a637dc5a2c898a6; 0x113f9804bef90dae; 0x1b710b35131c471b;
  0x28db77f523047d84; 0x32caab7b40c72493; 0x3c9ebe0a15c9bebc;
  0x431d67c49c100d4c; 0x4cc5d4becb3e42b6; 0x597f299cfc657e2a;
  0x5fcb6fab3ad6faec; 0x6c44198c4a475817
].

Definition H0 : list Z := [
  0x6a09e667f3bcc908; 0xbb67ae8584caa73b; 0x3c6ef372fe94f82b;
  0xa54ff53a5f1d36f1; 0x510e527fade682d1; 0x9b05688c2b3e6c1f;
  0x1f83d9abfb41bd6b; 0x5be0cd19137e2179
].

(** [n] octets, big-endian, of [v] (the low [8 n] bits). *)
Fixpoint be_fixed (n : nat) (v : Z) : Buffer :=
  match n with
  | O => []
  | S n' => be_fixed n' (Z.shiftr v 8) ++ [byte_of_N (Z.to_N (Z.land v 255))]
  end.

Definition word_of_bytes (b : Buffer) : Z :=
  fold_left (fun acc x => acc * 256 + Z.of_N (Byte.to_N x)) b 0.

(** Padding (FIPS 180-4, 5.1.2): 0x80, zeros, and the bit length on 16
    octets, to a multiple of 128 octets. *)
Definition pad (msg : Buffer) : Buffer :=
  let len := length msg in
  let zeros := ((128 - ((len + 17) mod 128)) mod 128)%nat in
  msg ++ [x80] ++ repeat x00 zeros ++ be_fixed 16 (8 * Z.of_nat len).

(** Split into chunks of [n] elements; [fuel] bounds the number of
    chunks. *)
Fixpoint chunks {A} (fuel n : nat) (l : list A) : list (list A) :=
  match fuel with
  | O => []
  | S fuel' =>
      match l with
      | [] => []
      | _ => firstn n l :: chunks fuel' n (skipn n l)
      end
  end.

Definition words_of_block (block : Buffer) : list Z :=
  map word_of_bytes (chunks 16 8 block).

(** The message schedule: [w] holds the last 16 words, oldest first. *)
Fixpoint schedule (n : nat) (w : list Z) : list Z :=
  match n with
  | O => []
  | S n' =>
      let x :=
        add64 (add64 (sigma1 (nth 14 w 0)) (nth 9 w 0))
              (add64 (sigma0 (nth 1 w 0)) (nth 0 w 0)) in
      x :: schedule n' (tl w ++ [x])
  end.

Record State : Type := {
  sa : Z; sb : Z; sc : Z; sd : Z; se : Z; sf : Z; sg : Z; sh : Z
}.

Definition round (s : State) (kw : Z * Z) : State :=
  let T1 :=
    add64 (add64 (add64 (sh s) (Sigma1 (se s))) (Ch (se s) (sf s) (sg s)))
          (add64 (fst kw) (snd kw)) in
  let T2 := add64 (Sigma0 (sa s)) (Maj (sa s) (sb s) (sc s)) in
  {| sa := add64 T1 T2; sb := sa s; sc := sb s; sd := sc s;
     se := add64 (sd s) T1; sf := se s; sg := sf s; sh := sg s |}.

Definition state_of_list (h : list Z) : State :=
  {| sa := nth 0 h 0; sb := nth 1 h 0; sc := nth 2 h 0; sd := nth 3 h 0;
     se := nth 4 h 0; sf := nth 5 h 0; sg := nth 6 h 0; sh := nth 7 h 0 |}.

Definition list_of_state (s : State) : list Z :=
  [sa s; sb s; sc s; sd s; se s; sf s; sg s; sh s].

Definition compress (h : list Z) (block : Buffer) : list Z :=
  let w16 := words_of_block block in
  let w := w16 ++ schedule 64 w16 in
  let s := fold_left round (combine K w) (state_of_list h) in
  map (fun p => add64 (fst p) (snd p)) (combine h (list_of_state s)).

Definition sha512 (msg : Buffer) : Buffer :=
  let padded := pad msg in
  let blocks := chunks (length padded) 128 padded in
  flat_map (be_fixed 8) (fold_left compress blocks H0).

End Sha512.

(** ** Pure Ed25519 *)

Module Ed25519Ref.

(** Modelled from the spec: the package [tweetnacl] is not part of the
    sources; section 4.8 says "sign(message, 32-byte-seed) computes pure
    Ed25519; validate(message) verifies".  Pure Ed25519 is the signature
    scheme of RFC 8032, section 5.1, over SHA-512.  Field elements and
    scalars are [bigN] numbers so that the scheme evaluates on the test
    vectors; every operation reduces modulo [p] or [L]. *)
Local Open Scope bigN_scope.

Definition p : bigN := 2 ^ 255 - 19.

Definition L : bigN := 2 ^ 252 + 27742317777372353535851937790883648493.

Definition fadd (a b : bigN) : bigN := (a + b) mod p.
Definition fsub (a b : bigN) : bigN := (a + p - b) mod p.
Definition fmul (a b : bigN) : bigN := (a * b) mod p.

Fixpoint fpow (a : bigN) (e : positive) : bigN :=
  match e with
  | xH => a
  | xO e' => let x := fpow a e' in fmul x x
  | xI e' => let x := fpow a e' in fmul (fmul x x) a
  end.

Definition exponent (n : N) : positive :=
  match n with Npos e => e | N0 => xH end.

(** Inverse by Fermat: a^(p-2). *)
Definition finv (a : bigN) : bigN := fpow a (exponent (2 ^ 255 - 21)).

(** d = -121665/121666 and a square root of -1. *)
Definition d : bigN :=
  37095705934669439343138083508754565189542113879843219016388785533085940283555.

Definition sqrt_m1 : bigN :=
  19681161376707505956807079304988542015446066515923890162744021073123829784752.

(** Points in extended homogeneous coordinates (X : Y : Z : T),
    x = X/Z, y = Y/Z, x y = T/Z. *)
Record Point : Type := { pX : bigN; pY : bigN; pZ : bigN; pT : bigN }.

Definition identity : Point := {| pX := 0; pY := 1; pZ := 1; pT := 0 |}.

Definition Bx : bigN :=
  15112221349535400772501151409588531511454012693041857206046113283949847762202.

Definition By : bigN :=
  46316835694926478169428394003475163141307993866256225615783033603165251855960.

Definition B : Point := {| pX := Bx; pY := By; pZ := 1; pT := fmul Bx By |}.

(** Point addition (RFC 8032, 5.1.4); the formula is complete, it also
    doubles. *)
Definition padd (P Q : Point) : Point :=
  let A := fmul (fsub (pY P) (pX P)) (fsub (pY Q) (pX Q)) in
  let B := fmul (fadd (pY P) (pX P)) (fadd (pY Q) (pX Q)) in
  let C := fmul (fmul (fmul (pT P) 2) d) (pT Q) in
  let D := fmul (fmul (pZ P) 2) (pZ Q) in
  let E := fsub B A in
  let F := fsub D C in
  let G := fadd D C in
  let H := fadd B A in
  {| pX := fmul E F; pY := fmul G H; pZ := fmul F G; pT := fmul E H |}.

Fixpoint smul_pos (k : positive) (P : Point) : Point :=
  match k with
  | xH => P
  | xO k' => let Q := smul_pos k' P in padd Q Q
  | xI k' => let Q := smul_pos k' P in padd (padd Q Q) P
  end.

Definition smul (k : N) (P : Point) : Point :=
  match k with
  | N0 => identity
  | Npos k' => smul_pos k' P
  end.

Definition point_eqb (P Q : Point) : bool :=
  BigN.eqb (fmul (pX P) (pZ Q)) (fmul (pX Q) (pZ P)) &&
  BigN.eqb (fmul (pY P) (pZ Q)) (fmul (pY Q) (pZ P)).

(** Little-endian octets. *)
Fixpoint le_fixed (n : nat) (v : N) : Buffer :=
  match n with
  | O => []
  | S n' => byte_of_N (N.land v 255) :: le_fixed n' (N.shiftr v 8)
  end.

Definition le_value (b : Buffer) : N :=
  fold_right (fun x acc => (acc * 256 + Byte.to_N x)%N) 0%N b.

(** Encoding (5.1.2): y on 255 bits, the low bit of x as bit 255. *)
Definition encodePoint (P : Point) : Buffer :=
  let zi := finv (pZ P) in
  let x := BigN.to_N (fmul (pX P) zi) in
  let y := BigN.to_N (fmul (pY P) zi) in
  le_fixed 32 (N.lor y (N.shiftl (N.land x 1) 255)).

(** Decoding (5.1.3). *)
Definition recover_x (y : bigN) (sign : bool) : option bigN :=
  if BigN.leb p y then None
  else
    let y2 := fmul y y in
    let u := fsub y2 1 in
    let v := fadd (fmul d y2) 1 in
    let x2 := fmul u (finv v) in
    if BigN.eqb x2 0 then (if sign then None else Some 0)
    else
      let x := fpow x2 (exponent (2 ^ 252 - 2)) in      (* (p+3)/8 *)
      let x := if BigN.eqb (fmul x x) x2 then x else fmul x sqrt_m1 in
      if negb (BigN.eqb (fmul x x) x2) then None
      else
        let odd := N.odd (BigN.to_N x) in
        Some (if Bool.eqb odd sign then x else fsub 0 x).

Definition decodePoint (b : Buffer) : option Point :=
  if negb (length b =? 32)%nat then None
  else
    let v := le_value b in
    let y := BigN.of_N (N.land v (N.ones 255)) in
    match recover_x y (N.testbit v 255) with
    | None => None
    | Some x => Some {| pX := x; pY := y; pZ := 1; pT := fmul x y |}
    end.

(** The secret scalar (5.1.5): the first half of SHA-512(seed) with the
    three low bits and the top bit cleared and bit 254 set. *)
Definition clamp (h : Buffer) : N :=
  N.lor (N.land (le_value (firstn 32 h)) (2 ^ 254 - 8)) (2 ^ 254).

Definition mod_L (v : N) : bigN := BigN.of_N v mod L.

Definition publicKeyOfSeed (seed : Buffer) : Buffer :=
  encodePoint (smul (clamp (Sha512.sha512 seed)) B).

(** Signing (5.1.6). *)
Definition signDetached (msg seed pk : Buffer) : Buffer :=
  let h := Sha512.sha512 seed in
  let a := clamp h in
  let prefix := skipn 32 h in
  let r := mod_L (le_value (Sha512.sha512 (prefix ++ msg))) in
  let R := encodePoint (smul (BigN.to_N r) B) in
  let k := mod_L (le_value (Sha512.sha512 (R ++ pk ++ msg))) in
  let S := (r + k * BigN.of_N a) mod L in
  R ++ le_fixed 32 (BigN.to_N S).

(** Verification (5.1.7): [S]B = R + [k]A. *)
Definition verifyDetached (msg sig pk : Buffer) : bool :=
  if negb (length sig =? 64)%nat then false
  else
    match decodePoint pk, decodePoint (firstn 32 sig) with
    | Some A, Some R =>
        let S := le_value (skipn 32 sig) in
        if BigN.leb L (BigN.of_N S) then false
        else
          let k := mod_L (le_value (Sha512.sha512 (firstn 32 sig ++ pk ++ msg))) in
          point_eqb (smul S B) (padd R (smul (BigN.to_N k) A))
    | _, _ => false
    end.

(** The three entry points of the library, as [Ed25519.sign] and
    [Ed25519.validate] call them.  The secret key of a pair is the seed
    followed by the public key.  A key or a signature that is absent
    verifies nothing. *)
Definition nacl : Ed25519.NaclLib :=
  {| Ed25519.fromSeed seed :=
       let pk := publicKeyOfSeed seed in
       {| Ed25519.kp_publicKey := pk; Ed25519.kp_secretKey := seed ++ pk |};
     Ed25519.detached msg secretKey :=
       signDetached msg (firstn 32 secretKey) (skipn 32 secretKey);
     Ed25519.detached_verify msg sig pk :=
       match sig, pk with
       | Some s, Some k => Ok (verifyDetached msg s k)
       | _, _ => Ok false
       end |}.

End Ed25519Ref.

(** ** Text forms: numbers and base64url *)

Module Text.

(** Digits of [n] in base [base], most significant first; [fuel] bounds
    their number. *)
Fixpoint digits_acc (fuel : nat) (base n : N) (acc : list N) : list N :=
  match fuel with
  | O => acc
  | S fuel' =>
      if (n =? 0)%N then acc
      else digits_acc fuel' base (n / base)%N ((n mod base)%N :: acc)
  end.

Definition digits (base n : N) : list N :=
  match digits_acc (N.to_nat (N.size n)) base n [] with
  | [] => [0%N]
  | ds => ds
  end.

Definition digitChar (d : N) : ascii :=
  if (d <? 10)%N then ascii_of_N (48 + d) else ascii_of_N (87 + d).

Definition string_of_chars (l : list ascii) : string :=
  fold_right String EmptyString l.

(** Lowercase hexadecimal and decimal, no leading zeros, "0" for zero. *)
Definition hexOfN (n : N) : string :=
  string_of_chars (map digitChar (digits 16 n)).

Definition decOfN (n : N) : string :=
  string_of_chars (map digitChar (digits 10 n)).

Definition digitValue (base : N) (c : ascii) : option N :=
  let v := N_of_ascii c in
  let d :=
    if ((48 <=? v) && (v <=? 57))%N then Some (v - 48)%N
    else if ((97 <=? v) && (v <=? 102))%N then Some (v - 87)%N
    else None in
  match d with
  | Some x => if (x <? base)%N then Some x else None
  | None => None
  end.

Fixpoint parseDigits (base : N) (s : string) (acc : N) : option N :=
  match s with
  | EmptyString => Some acc
  | String c s' =>
      match digitValue base c with
      | Some d => parseDigits base s' (acc * base + d)%N
      | None => None
      end
  end.

(** A number is accepted in its canonical form only. *)
Definition parseHex (s : string) : Result N :=
  match parseDigits 16 s 0 with
  | Some n => if String.eqb (hexOfN n) s then Ok n else Throw ParseError
  | None => Throw ParseError
  end.

Definition parseDec (s : string) : Result N :=
  match parseDigits 10 s 0 with
  | Some n => if String.eqb (decOfN n) s then Ok n else Throw ParseError
  | None => Throw ParseError
  end.

(** Split at every colon. *)
Fixpoint splitColon (s : string) : list string :=
  match s with
  | EmptyString => [EmptyString]
  | String c s' =>
      if Ascii.eqb c ":" then EmptyString :: splitColon s'
      else
        match splitColon s' with
        | [] => [String c EmptyString]
        | x :: r => String c x :: r
        end
  end.

(** The base64url alphabet: A-Z a-z 0-9 - _ *)
Definition b64Char (v : N) : ascii :=
  if (v <? 26)%N then ascii_of_N (65 + v)
  else if (v <? 52)%N then ascii_of_N (71 + v)
  else if (v <? 62)%N then ascii_of_N (v - 4)
  else if (v =? 62)%N then "-"%char
  else "_"%char.

Definition b64Value (c : ascii) : option N :=
  let v := N_of_ascii c in
  if ((65 <=? v) && (v <=? 90))%N then Some (v - 65)%N
  else if ((97 <=? v) && (v <=? 122))%N then Some (v - 71)%N
  else if ((48 <=? v) && (v <=? 57))%N then Some (v + 4)%N
  else if (v =? 45)%N then Some 62%N
  else if (v =? 95)%N then Some 63%N
  else None.

(** Unpadded base64url of a buffer. *)
Fixpoint b64Encode (b : list N) : list ascii :=
  match b with
  | x :: y :: z :: rest =>
      let v := (x * 65536 + y * 256 + z)%N in
      b64Char (v / 262144) :: b64Char ((v / 4096) mod 64)
        :: b64Char ((v / 64) mod 64) :: b64Char (v mod 64) :: b64Encode rest
  | [x; y] =>
      let v := (x * 1024 + y * 4)%N in
      [b64Char (v / 4096); b64Char ((v / 64) mod 64); b64Char (v mod 64)]
  | [x] =>
      let v := (x * 16)%N in
      [b64Char (v / 64); b64Char (v mod 64)]
  | [] => []
  end.

Definition base64url (b : Buffer) : string :=
  string_of_chars (b64Encode (map Byte.to_N b)).

Fixpoint b64Values (s : string) : option (list N) :=
  match s with
  | EmptyString => Some []
  | String c s' =>
      match b64Value c, b64Values s' with
      | Some v, Some vs => Some (v :: vs)
      | _, _ => None
      end
  end.

Fixpoint b64Decode (v : list N) : option (list N) :=
  match v with
  | a :: b :: c :: d :: rest =>
      match b64Decode rest with
      | Some r =>
          let x := (a * 262144 + b * 4096 + c * 64 + d)%N in
          Some ((x / 65536) :: ((x / 256) mod 256) :: (x mod 256) :: r)%N
      | None => None
      end
  | [a; b; c] =>
      let x := (a * 4096 + b * 64 + c)%N in
      Some [x / 1024; (x / 4) mod 256]%N
  | [a; b] =>
      let x := (a * 64 + b)%N in Some [x / 16]%N
  | [_] => None
  | [] => Some []
  end.

Definition fromBase64url (s : string) : Result Buffer :=
  match b64Values s with
  | Some vs =>
      match b64Decode vs with
      | Some bs => Ok (map byte_of_N bs)
      | None => Throw ParseError
      end
  | None => Throw ParseError
  end.

Fixpoint buffer_eqb (a b : Buffer) : bool :=
  match a, b with
  | [], [] => true
  | x :: a', y :: b' => Byte.eqb x y && buffer_eqb a' b'
  | _, _ => false
  end.

End Text.

(** ** Conditions *)

Module Condition.
Import Text.

(** Modelled from the spec: [lib/condition.js] is not part of the
    sources.  Section 3: a condition is the tuple (type_id,
    feature_bitmask, hash, max_fulfillment_length).  Section 4.2:
    "serializeUri() emits cc:<hex type_id>:<hex feature_bitmask>:
    <base64url(hash, no padding)>:<decimal max_fulfillment_length>.  The
    binary form is: uint16 type_id | varUInt feature_bitmask |
    varOctetString hash | varUInt max_fulfillment_length." *)
Record t : Type := {
  typeId : N;
  bitmask : N;
  hash : Buffer;
  maxFulfillmentLength : N
}.

Definition serializeUri (c : t) : string :=
  String.append "cc:"
    (String.append (hexOfN (typeId c))
       (String.append ":"
          (String.append (hexOfN (bitmask c))
             (String.append ":"
                (String.append (base64url (hash c))
                   (String.append ":" (decOfN (maxFulfillmentLength c)))))))).

Definition fromUri (uri : string) : Result t :=
  match splitColon uri with
  | [pre; ty; bm; h; len] =>
      if negb (String.eqb pre "cc") then Throw ParseError
      else
        match parseHex ty, parseHex bm, fromBase64url h, parseDec len with
        | Ok ty', Ok bm', Ok h', Ok len' =>
            Ok {| typeId := ty'; bitmask := bm'; hash := h';
                  maxFulfillmentLength := len' |}
        | _, _, _, _ => Throw ParseError
        end
  | _ => Throw ParseError
  end.

Definition uint16 (n : N) : Buffer :=
  [byte_of_N (n / 256); byte_of_N n].

Definition writeBinary (c : t) : M Writer unit :=
  write (uint16 (typeId c)) ;;
  writeVarUInt (bitmask c) ;;
  writeVarOctetString (hash c) ;;
  writeVarUInt (maxFulfillmentLength c).

Definition serializeBinary (c : t) : Buffer :=
  getBuffer (snd (writeBinary c newWriter)).

End Condition.

(** ** The fulfillment base class and the high-level API *)

Module Fulfillment.
Import Text.

(** Modelled from the spec: [lib/fulfillment.js], the type registry and
    [index.js] are not part of the sources.  Section 9: the types share
    the protocol {generateHash, writeHashPayload, parsePayload,
    writePayload, calculateMaxFulfillmentLength, validate}. *)
Class FulfillmentClass (T : Type) : Type := {
  TYPE_ID : N;
  FEATURE_BITMASK : N;
  create : T;
  generateHash : T -> Result Buffer;
  calculateMaxFulfillmentLength : T -> Result N;
  writePayload : T -> M Writer unit;
  parsePayload : M (T * Reader) unit;
  validate : JsValue -> T -> Result bool
}.

Section Base.

Context {T : Type} {cls : FulfillmentClass T}.

(** Modelled from the spec: section 4.3, "get_condition() constructs a
    Condition from (this.TYPE_ID, computed_bitmask, generate_hash(),
    calculate_max_fulfillment_length())". *)
Definition getCondition (this : T) : Result Condition.t :=
  match generateHash this with
  | Throw e => Throw e
  | Ok h =>
      match calculateMaxFulfillmentLength this with
      | Throw e => Throw e
      | Ok len =>
          Ok {| Condition.typeId := TYPE_ID;
                Condition.bitmask := FEATURE_BITMASK;
                Condition.hash := h;
                Condition.maxFulfillmentLength := len |}
      end
  end.

Definition getConditionUri (this : T) : Result string :=
  match getCondition this with
  | Ok c => Ok (Condition.serializeUri c)
  | Throw e => Throw e
  end.

Definition serializePayload (this : T) : Result Buffer :=
  match writePayload this newWriter with
  | (Ok _, w) => Ok (getBuffer w)
  | (Throw e, _) => Throw e
  end.

(** Modelled from the spec: section 4.3, "serialize_uri() emits
    cf:<hex type_id>:<base64url(payload, no padding)>". *)
Definition serializeUri (this : T) : Result string :=
  match serializePayload this with
  | Ok payload =>
      Ok (String.append "cf:"
            (String.append (hexOfN TYPE_ID)
               (String.append ":" (base64url payload))))
  | Throw e => Throw e
  end.

(** Modelled from the spec: section 4.3, "parse_uri(cf_uri) validates
    the cf: prefix, parses the type ID, then dispatches to
    parse_payload(reader)"; "decoding a type ID not in the registry
    fails with unsupported-type".  The registry is seen here from one
    of its entries: an ID other than that of [T] is not dispatched. *)
Definition fromFulfillmentUri (uri : string) : Result T :=
  match splitColon uri with
  | [pre; ty; payload] =>
      if negb (String.eqb pre "cf") then Throw ParseError
      else
        match parseHex ty, fromBase64url payload with
        | Ok ty', Ok bytes =>
            if negb (ty' =? TYPE_ID)%N then Throw UnsupportedTypeError
            else
              match parsePayload (create, fromBuffer bytes) with
              | (Ok _, (this, _)) => Ok this
              | (Throw e, _) => Throw e
              end
        | _, _ => Throw ParseError
        end
  | _ => Throw ParseError
  end.

(** Modelled from the spec: section 4.9, "validateFulfillment(f_uri,
    c_uri, message?): parses both, requires that the fulfillment's
    derived condition equals the given condition (byte-exact), that
    len(serialized fulfillment) <= condition.max_fulfillment_length, and
    that validate(message) succeeds.  Any failure throws the matching
    error kind." *)
Definition validateFulfillment (fulfillmentUri conditionUri : string)
    (message : JsValue) : Result bool :=
  match fromFulfillmentUri fulfillmentUri with
  | Throw e => Throw e
  | Ok this =>
      match Condition.fromUri conditionUri with
      | Throw e => Throw e
      | Ok condition =>
          match getCondition this with
          | Throw e => Throw e
          | Ok derived =>
              if negb (buffer_eqb (Condition.serializeBinary derived)
                         (Condition.serializeBinary condition))
              then Throw ConditionMismatchError
              else
                match serializePayload this with
                | Throw e => Throw e
                | Ok payload =>
                    if (Condition.maxFulfillmentLength condition
                        <? N.of_nat (length payload))%N
                    then Throw TooLargeError
                    else validate message this
                end
          end
      end
  end.

End Base.

(** The Ed25519 entry of the registry, over given signature libraries. *)
Definition Ed25519Class (ed25519 : option Ed25519.NativeLib)
    (nacl : Ed25519.NaclLib) : FulfillmentClass Ed25519.t :=
  {| TYPE_ID := Ed25519.TYPE_ID;
     FEATURE_BITMASK := Ed25519.FEATURE_BITMASK;
     create := Ed25519.constructor;
     generateHash := Ed25519.generateHash;
     calculateMaxFulfillmentLength := Ed25519.calculateMaxFulfillmentLength;
     writePayload := Ed25519.writePayload;
     parsePayload := Ed25519.parsePayload;
     validate := Ed25519.validate ed25519 nacl |}.

(** The entry when [require('ed25519')] fails and the portable library
    does the work. *)
Definition PortableEd25519 : FulfillmentClass Ed25519.t :=
  Ed25519Class None Ed25519Ref.nacl.

End Fulfillment.

(** ** The test vector of the Ed25519 suite (zero key, empty message) *)

Module ZeroKeyVector.

Definition key : Buffer := repeat x00 32.
Definition message : Buffer := [].

Definition fulfillmentUri : string :=
  "cf:4:O2onvM62pC1io6jQKm8Nc2UyFXcd4kOmOsBIoYtZ2imPiVs8r-LJUGA50OKmY4JWgARnT-jSN3hQkuQNaq9IPk_GAWhwXzHxAVlhOM4hqjV8DTKgZPQj3D7kqjq_U_gD".

Definition conditionUri : string :=
  "cc:4:20:O2onvM62pC1io6jQKm8Nc2UyFXcd4kOmOsBIoYtZ2ik:96".

(** [const f = new cc.Ed25519(); f.sign(params.message, params.key)] *)
Definition signed : Result unit * Ed25519.t :=
  Ed25519.sign None Ed25519Ref.nacl (JsBuffer message) (JsBuffer key)
    Ed25519.constructor.

End ZeroKeyVector.

(** ** The second test vector (key 32 x 0xff, message 0x616263) *)

Module OnesKeyVector.

Definition key : Buffer := repeat xff 32.
Definition message : Buffer := [x61; x62; x63].

Definition fulfillmentUri : string :=
  "cf:4:dqFZIESm5PURJlvKc6YE2QsFKdHfYCvjChmpJXZg0fWuxqtqkSKv8PfcuWZ_9hMTaJRzK254wm9bZzEB4mf-Litl-k1T2tR4oa2mTVD9Hf232Ukg3D4aVkpkexy6NWAB".

Definition conditionUri : string :=
  "cc:4:20:dqFZIESm5PURJlvKc6YE2QsFKdHfYCvjChmpJXZg0fU:96".

Definition signed : Result unit * Ed25519.t :=
  Ed25519.sign None Ed25519Ref.nacl (JsBuffer message) (JsBuffer key)
    Ed25519.constructor.

End OnesKeyVector.


(** ** Further vocabulary for the two classes *)

(** The octets [writeHashPayload] and [writePayload] give a fresh writer,
    and the count they give a fresh predictor. *)
Module Payloads.

Definition written (c : M Writer unit) : Result Buffer :=
  match c newWriter with
  | (Ok _, w) => Ok (getBuffer w)
  | (Throw e, _) => Throw e
  end.

Definition predicted (c : M Predictor unit) : Result N :=
  match c newPredictor with
  | (Ok _, p) => Ok (getSize p)
  | (Throw e, _) => Throw e
  end.

Definition rsaHashPayload (this : RsaSha256.t) : Result Buffer :=
  written (RsaSha256.writeHashPayload this).

End Payloads.

(** ** Sequences of calls on an Ed25519 fulfillment *)

Module Ed25519Calls.

Inductive Call : Type :=
| SetPublicKey (v : JsValue)
| SetSignature (v : JsValue)
| ParsePayload (reader : Reader)
| Sign (message privateKey : JsValue).

Section Libraries.

Variable ed25519 : option Ed25519.NativeLib.
Variable nacl : Ed25519.NaclLib.

(** The object after a call, whether the call returned or threw. *)
Definition runCall (this : Ed25519.t) (c : Call) : Ed25519.t :=
  match c with
  | SetPublicKey v => snd (Ed25519.setPublicKey v this)
  | SetSignature v => snd (Ed25519.setSignature v this)
  | ParsePayload reader => fst (snd (Ed25519.parsePayload (this, reader)))
  | Sign message privateKey =>
      snd (Ed25519.sign ed25519 nacl message privateKey this)
  end.

Definition runCalls (calls : list Call) (this : Ed25519.t) : Ed25519.t :=
  fold_left runCall calls this.

(** The public key and the signature that the library in use gives for
    a seed and a message, and its verdict on the stored fields. *)
Definition libraryKey (seed : Buffer) : Buffer :=
  match ed25519 with
  | Some lib => Ed25519.kp_publicKey (Ed25519.MakeKeypair lib seed)
  | None => Ed25519.kp_publicKey (Ed25519.fromSeed nacl seed)
  end.

Definition librarySignature (msg seed : Buffer) : Buffer :=
  match ed25519 with
  | Some lib => Ed25519.Sign lib msg (Ed25519.MakeKeypair lib seed)
  | None =>
      Ed25519.detached nacl msg
        (Ed25519.kp_secretKey (Ed25519.fromSeed nacl seed))
  end.

Definition verdict (msg : Buffer) (this : Ed25519.t) : Result bool :=
  match ed25519 with
  | Some lib =>
      Ed25519.Verify lib msg (Ed25519.signature this) (Ed25519.publicKey this)
  | None =>
      Ed25519.detached_verify nacl msg (Ed25519.signature this)
        (Ed25519.publicKey this)
  end.

(** Every signature the libraries return has 64 octets. *)
Definition SignaturesHave64 : Prop :=
  (forall lib, ed25519 = Some lib ->
     forall msg kp, length (Ed25519.Sign lib msg kp) = 64) /\
  (forall msg sk, length (Ed25519.detached nacl msg sk) = 64).

End Libraries.

Definition KeyOk (this : Ed25519.t) : Prop :=
  forall k, Ed25519.publicKey this = Some k -> length k = 32.

Definition SignatureOk (this : Ed25519.t) : Prop :=
  forall s, Ed25519.signature this = Some s -> length s = 64.

(** A call that does not sign. *)
Definition isSign (c : Call) : bool :=
  match c with Sign _ _ => true | _ => false end.

End Ed25519Calls.

(** ** Sequences of calls on an RSA-SHA-256 fulfillment, [sign] included *)

Module RsaCalls.

Inductive Call : Type :=
| SetPublicModulus (v : JsValue)
| SetSignature (v : JsValue)
| ParsePayload (reader : Reader)
| Sign (message : Buffer) (privateKey : string).

Section Primitives.

Variable rsa_sign : string -> Buffer -> Result Buffer.
Variable modulusFromPrivateKey : string -> Result Buffer.

(** The object after a call, whether the call returned or threw. *)
Definition runCall (this : RsaSha256.t) (c : Call) : RsaSha256.t :=
  match c with
  | SetPublicModulus v => snd (RsaSha256.setPublicModulus v this)
  | SetSignature v => snd (RsaSha256.setSignature v this)
  | ParsePayload reader =>
      fst (snd (RsaSha256.parsePayload (this, reader)))
  | Sign message privateKey =>
      snd (RsaSha256.sign rsa_sign modulusFromPrivateKey message privateKey
             this)
  end.

Definition runCalls (calls : list Call) (this : RsaSha256.t) : RsaSha256.t :=
  fold_left runCall calls this.

End Primitives.

End RsaCalls.

(** ** A verifier that cannot work on null fields *)

Module RsaVerifierSample.

(** [rsa.verify] of [crypto/rsa] is not part of the sources.  A verifier
    has to build a public key from the modulus and to read the
    signature: this one throws a [TypeError] when either is [null], as
    on a fulfillment that was never populated, and otherwise accepts no
    signature. *)
Definition refusingVerify (modulus : option Buffer) (message : Buffer)
    (signature : option Buffer) : Result bool :=
  match modulus, signature with
  | Some _, Some _ => Ok false
  | _, _ => Throw TypeError
  end.

End RsaVerifierSample.

(** * Properties *)

(** ** The monad *)

Lemma bind_Ok {St A B} (c : M St A) (k : A -> M St B) s a s' :
  c s = (Ok a, s') -> bind c k s = k a s'.
Proof. intros H. unfold bind. rewrite H. reflexivity. Qed.

Lemma bind_Throw {St A B} (c : M St A) (k : A -> M St B) s e s' :
  c s = (Throw e, s') -> bind c k s = (Throw e, s').
Proof. intros H. unfold bind. rewrite H. reflexivity. Qed.

(** ** Octets and the OER codec *)

Lemma to_N_byte_of_N n : Byte.to_N (byte_of_N n) = (n mod 256)%N.
Proof.
  unfold byte_of_N.
  destruct (Byte.of_N (n mod 256)) as [b|] eqn:E.
  - apply Byte.to_of_N in E. exact E.
  - exfalso. apply Byte.of_N_None_iff in E.
    pose proof (N.mod_upper_bound n 256). lia.
Qed.

Lemma to_N_byte_of_N_small n : (n < 256)%N -> Byte.to_N (byte_of_N n) = n.
Proof. intros H. rewrite to_N_byte_of_N. apply N.mod_small. exact H. Qed.

Module OerFacts.

Lemma be_value_app l b :
  be_value (l ++ [b]) = (be_value l * 256 + Byte.to_N b)%N.
Proof. unfold be_value. rewrite fold_left_app. reflexivity. Qed.

Lemma be_acc_app fuel : forall n acc,
  be_acc fuel n acc = be_acc fuel n [] ++ acc.
Proof.
  induction fuel as [|fuel IH]; intros n acc; simpl.
  - reflexivity.
  - destruct (n =? 0)%N; [reflexivity|].
    rewrite IH. rewrite (IH _ [byte_of_N n]).
    rewrite <- app_assoc. reflexivity.
Qed.

Lemma size_div256_le n : (n <> 0 -> N.size (n / 256) < N.size n)%N.
Proof.
  intros Hn.
  destruct (N.eq_dec (n / 256) 0) as [E|E].
  - rewrite E. simpl. destruct n; [congruence|]. simpl. lia.
  - rewrite !N.size_log2 by assumption.
    change 256%N with (2 ^ 8)%N. rewrite <- N.shiftr_div_pow2.
    rewrite N.log2_shiftr.
    assert (0 < N.log2 n)%N.
    { apply N.log2_pos. destruct (N.lt_ge_cases 1 n) as [H|H]; [exact H|].
      exfalso. apply E. apply N.div_small. lia. }
    lia.
Qed.

Lemma be_value_be_acc fuel : forall n,
  (N.size n <= N.of_nat fuel)%N -> be_value (be_acc fuel n []) = n.
Proof.
  induction fuel as [|fuel IH]; intros n Hn; simpl.
  - destruct n; [reflexivity|]. simpl in Hn. lia.
  - destruct (n =? 0)%N eqn:E.
    + apply N.eqb_eq in E. subst. reflexivity.
    + apply N.eqb_neq in E.
      rewrite be_acc_app, be_value_app, to_N_byte_of_N.
      rewrite IH.
      * pose proof (N.div_mod n 256). lia.
      * pose proof (size_div256_le E). lia.
Qed.

(** Decoding the minimum-length big-endian form gives the number back. *)
Lemma be_value_be_bytes n : be_value (be_bytes n) = n.
Proof. unfold be_bytes. apply be_value_be_acc. lia. Qed.

Lemma size_div256 n : (N.size (n / 256) = N.size n - 8)%N.
Proof.
  destruct (N.eq_dec n 0) as [->|Hn]; [reflexivity|].
  rewrite (N.size_log2 n) by assumption.
  destruct (N.lt_ge_cases n (2 ^ 8)) as [H|H].
  - change (2 ^ 8)%N with 256%N in H.
    rewrite N.div_small by assumption. simpl.
    assert (N.log2 n < 8)%N by (apply N.log2_lt_pow2; lia).
    lia.
  - assert (8 <= N.log2 n)%N by (apply N.log2_le_pow2; lia).
    assert (n / 256 <> 0)%N.
    { intros E. apply N.div_small_iff in E; [|lia].
      change (2 ^ 8)%N with 256%N in H. lia. }
    rewrite N.size_log2 by assumption.
    change 256%N with (2 ^ 8)%N. rewrite <- N.shiftr_div_pow2.
    rewrite N.log2_shiftr. lia.
Qed.

Lemma byteLength_step n :
  (n <> 0 -> byteLength n = byteLength (n / 256) + 1)%N.
Proof.
  intros Hn. unfold byteLength. rewrite size_div256.
  assert (1 <= N.size n)%N by (rewrite N.size_log2 by assumption; lia).
  destruct (N.lt_ge_cases (N.size n) 8) as [H8|H8].
  - replace (N.size n - 8)%N with 0%N by lia.
    change ((0 + 7) / 8)%N with 0%N.
    assert ((N.size n + 7) / 8 = 1)%N; [|lia].
    symmetry. apply (N.div_unique _ _ _ (N.size n - 1)); lia.
  - replace (N.size n + 7)%N with ((N.size n - 8 + 7) + 1 * 8)%N by lia.
    rewrite N.div_add by lia. reflexivity.
Qed.

Lemma length_be_acc fuel : forall n,
  (N.size n <= N.of_nat fuel)%N ->
  N.of_nat (length (be_acc fuel n [])) = byteLength n.
Proof.
  induction fuel as [|fuel IH]; intros n Hn; simpl.
  - destruct n; [reflexivity|]. simpl in Hn. lia.
  - destruct (n =? 0)%N eqn:E.
    + apply N.eqb_eq in E. subst. reflexivity.
    + apply N.eqb_neq in E.
      rewrite be_acc_app, length_app. simpl.
      rewrite byteLength_step by assumption.
      rewrite <- IH.
      * lia.
      * pose proof (size_div256_le E). lia.
Qed.

(** The predictor's count of value octets is the writer's. *)
Lemma length_be_bytes n : N.of_nat (length (be_bytes n)) = byteLength n.
Proof. unfold be_bytes. apply length_be_acc. lia. Qed.

Lemma length_encodeVarUInt n :
  N.of_nat (length (encodeVarUInt n)) = measureVarUInt n.
Proof.
  unfold encodeVarUInt, measureVarUInt. simpl length.
  rewrite <- length_be_bytes. lia.
Qed.

Lemma length_encodeVarOctetString b :
  N.of_nat (length (encodeVarOctetString b))
  = measureVarOctetString (N.of_nat (length b)).
Proof.
  unfold encodeVarOctetString, measureVarOctetString.
  rewrite length_app, <- length_encodeVarUInt. lia.
Qed.

(** Reading back what the writer wrote. *)
Lemma read_app (b rest : Buffer) :
  read (length b) (b ++ rest) = (Ok b, rest).
Proof.
  unfold read. rewrite length_app.
  replace (length b <=? length b + length rest)%nat with true
    by (symmetry; apply Nat.leb_le; lia).
  rewrite firstn_app, Nat.sub_diag, firstn_all, skipn_app, Nat.sub_diag,
    skipn_all. simpl. rewrite app_nil_r. reflexivity.
Qed.

Lemma read_all (b : Buffer) : read (length b) b = (Ok b, []).
Proof.
  pose proof (read_app b []) as H. rewrite app_nil_r in H. exact H.
Qed.

Lemma byteLength_small n : (n < 2 ^ 1016 -> byteLength n <= 127)%N.
Proof.
  intros H. unfold byteLength.
  assert (N.size n <= 1016)%N.
  { destruct (N.eq_dec n 0) as [->|Hn]; [simpl; lia|].
    rewrite N.size_log2 by assumption.
    assert (N.log2 n < 1016)%N by (apply N.log2_lt_pow2; lia). lia. }
  apply N.lt_succ_r. apply N.Div0.div_lt_upper_bound; lia.
Qed.

Lemma readVarUInt_encode n rest :
  (n < 2 ^ 1016)%N ->
  readVarUInt (encodeVarUInt n ++ rest) = (Ok n, rest).
Proof.
  intros Hn. pose proof (byteLength_small Hn) as Hb.
  rewrite <- length_be_bytes in Hb.
  unfold readVarUInt, readUInt8, encodeVarUInt.
  set (v := be_bytes n) in *.
  set (l := byte_of_N (N.of_nat (length v))).
  assert (Hl : Byte.to_N l = N.of_nat (length v))
    by (apply to_N_byte_of_N_small; lia).
  change ((l :: v) ++ rest) with ([l] ++ (v ++ rest)).
  rewrite bind_Ok with (a := (0 * 256 + Byte.to_N l)%N) (s' := v ++ rest).
  2:{ rewrite bind_Ok with (a := [l]) (s' := v ++ rest); [reflexivity|].
      apply (read_app [l]). }
  rewrite Hl.
  replace (0 * 256 + N.of_nat (length v))%N with (N.of_nat (length v)) by lia.
  replace (127 <? N.of_nat (length v))%N with false
    by (symmetry; apply N.ltb_ge; lia).
  unfold readUInt. rewrite Nat2N.id.
  rewrite bind_Ok with (a := v) (s' := rest) by apply read_app.
  unfold ret. subst v. rewrite be_value_be_bytes. reflexivity.
Qed.

Lemma readVarOctetString_encode (b rest : Buffer) :
  (N.of_nat (length b) < 2 ^ 1016)%N ->
  readVarOctetString (encodeVarOctetString b ++ rest) = (Ok b, rest).
Proof.
  intros Hb. unfold readVarOctetString, encodeVarOctetString.
  rewrite <- app_assoc.
  rewrite bind_Ok with (a := N.of_nat (length b)) (s' := b ++ rest)
    by (apply readVarUInt_encode; exact Hb).
  rewrite Nat2N.id. apply read_app.
Qed.

End OerFacts.

(** ** RSA-SHA-256 *)

Module RsaFacts.
Import RsaSha256 OerFacts.

Lemma isZeroByte_true b : isZeroByte b = true <-> b = x00.
Proof.
  unfold isZeroByte. split.
  - apply Byte.byte_dec_bl.
  - apply Byte.byte_dec_lb.
Qed.

Lemma hasLeadingZero_true m :
  hasLeadingZero m = true <-> exists rest, m = x00 :: rest.
Proof.
  destruct m as [|b rest]; simpl.
  - split; [discriminate|]. intros [r H]. discriminate.
  - rewrite isZeroByte_true. split.
    + intros ->. eauto.
    + intros [r H]. congruence.
Qed.

Lemma hasLeadingZero_false m :
  hasLeadingZero m = false <-> forall rest, m <> x00 :: rest.
Proof.
  rewrite <- Bool.not_true_iff_false, hasLeadingZero_true.
  split.
  - intros H rest E. apply H. eauto.
  - intros H [rest E]. exact (H rest E).
Qed.

Lemma lengthOutOfRange_true m :
  lengthOutOfRange m = true <-> length m < 128 \/ 512 < length m.
Proof.
  unfold lengthOutOfRange.
  rewrite Bool.orb_true_iff, !Nat.ltb_lt. tauto.
Qed.

Lemma lengthOutOfRange_false m :
  lengthOutOfRange m = false <-> 128 <= length m <= 512.
Proof.
  unfold lengthOutOfRange.
  rewrite Bool.orb_false_iff, !Nat.ltb_ge. tauto.
Qed.

Lemma setPublicModulus_valid m this :
  ValidModulus m ->
  setPublicModulus (JsBuffer m) this
  = (Ok tt, {| modulus := Some m; signature := signature this |}).
Proof.
  intros [Hz Hl]. unfold setPublicModulus.
  apply hasLeadingZero_false in Hz. apply lengthOutOfRange_false in Hl.
  rewrite Hz, Hl. reflexivity.
Qed.

Lemma setPublicModulus_invalid m this :
  ~ ValidModulus m ->
  setPublicModulus (JsBuffer m) this = (Throw Error, this).
Proof.
  intros H. unfold setPublicModulus.
  destruct (hasLeadingZero m) eqn:Hz; [reflexivity|].
  destruct (lengthOutOfRange m) eqn:Hl; [reflexivity|].
  exfalso. apply H. split.
  - apply hasLeadingZero_false. exact Hz.
  - apply lengthOutOfRange_false. exact Hl.
Qed.

Lemma ValidModulus_m128 : ValidModulus m128.
Proof.
  split.
  - intros rest H. discriminate H.
  - unfold m128. rewrite repeat_length. lia.
Qed.

(** C1: with the modulus set, [calculateMaxFulfillmentLength] returns
    the size a predictor reaches after writing the modulus twice as a
    VarOctetString; and when the signature is as long as the modulus,
    that size is the exact length of the payload
    VarOctetString(modulus) | VarOctetString(signature) that
    [writePayload] produces. *)
Theorem C1_rsa_max_fulfillment_length (this : t) (m : Buffer) :
  modulus this = Some m ->
  let twice :=
    getSize (snd ((writeVarOctetString m ;; writeVarOctetString m)
                    newPredictor)) in
  calculateMaxFulfillmentLength this = Ok twice /\
  forall s, signature this = Some s -> length s = length m ->
    serializePayload this
    = Ok (encodeVarOctetString m ++ encodeVarOctetString s) /\
    N.of_nat (length (encodeVarOctetString m ++ encodeVarOctetString s))
    = twice.
Proof.
  intros Hm twice. split.
  - unfold calculateMaxFulfillmentLength, writeCommonHeader.
    rewrite Hm. reflexivity.
  - intros s Hs Hlen. split.
    + unfold serializePayload, writePayload, writeCommonHeader.
      rewrite Hs, Hm. reflexivity.
    + rewrite length_app, Nat2N.inj_add, !length_encodeVarOctetString.
      rewrite Hlen. subst twice. cbn. unfold newPredictor. lia.
Qed.

Lemma C1_rsa_max_fulfillment_length_witness :
  calculateMaxFulfillmentLength {| modulus := Some m128; signature := Some s128 |}
  = Ok 260%N.
Proof.
  exact (proj1 (@C1_rsa_max_fulfillment_length
                  {| modulus := Some m128; signature := Some s128 |}
                  m128 eq_refl)).
Defined.

(** C3: [setPublicModulus] applied to a buffer throws when the buffer
    starts with a zero octet or its length is outside [128, 512], and
    then leaves the object as it was; otherwise it succeeds and stores
    the buffer. *)
Theorem C3_setPublicModulus (m : Buffer) (this : t) :
  ((exists rest, m = x00 :: rest) \/ length m < 128 \/ 512 < length m ->
   exists e, setPublicModulus (JsBuffer m) this = (Throw e, this)) /\
  ((forall rest, m <> x00 :: rest) -> 128 <= length m <= 512 ->
   setPublicModulus (JsBuffer m) this
   = (Ok tt, {| modulus := Some m; signature := signature this |})).
Proof.
  split.
  - intros H. exists Error. apply setPublicModulus_invalid.
    intros [Hz Hl]. destruct H as [[rest E]|H]; [exact (Hz rest E)|lia].
  - intros Hz Hl. apply setPublicModulus_valid. split; assumption.
Qed.

Lemma C3_setPublicModulus_witness :
  (exists e, setPublicModulus (JsBuffer [x00; x01]) constructor
             = (Throw e, constructor)) /\
  setPublicModulus (JsBuffer m128) constructor
  = (Ok tt, {| modulus := Some m128; signature := None |}).
Proof.
  split.
  - apply (proj1 (C3_setPublicModulus [x00; x01] constructor)).
    left. exists [x01]. reflexivity.
  - apply (proj2 (C3_setPublicModulus m128 constructor)).
    + intros rest H. discriminate H.
    + unfold m128. rewrite repeat_length. lia.
Defined.

Lemma onSnd_run {S1 S2 A} (c : M S2 A) (a : S1) (s : S2) :
  onSnd c (a, s) = (fst (c s), (a, snd (c s))).
Proof. unfold onSnd. simpl. destruct (c s). reflexivity. Qed.

Lemma onFst_run {S1 S2 A} (c : M S1 A) (a : S1) (s : S2) :
  onFst c (a, s) = (fst (c a), (snd (c a), s)).
Proof. unfold onFst. simpl. destruct (c a). reflexivity. Qed.

(** *** What every reachable fulfillment satisfies *)

Lemma preserves_bind {St A B} (P : St -> Prop) (c : M St A)
    (k : A -> M St B) :
  preserves P c -> (forall a, preserves P (k a)) -> preserves P (bind c k).
Proof.
  intros Hc Hk s Hs. unfold bind.
  specialize (Hc s Hs). destruct (c s) as [[a|e] s']; simpl in *.
  - apply Hk. exact Hc.
  - exact Hc.
Qed.

Lemma preserves_onFst {S1 S2 A} (P : S1 -> Prop) (c : M S1 A) :
  preserves P c -> preserves (fun s : S1 * S2 => P (fst s)) (onFst c).
Proof.
  intros Hc [a s] Hs. rewrite onFst_run. simpl in *. apply Hc. exact Hs.
Qed.

Lemma preserves_onSnd {S1 S2 A} (P : S1 -> Prop) (c : M S2 A) :
  preserves (fun s : S1 * S2 => P (fst s)) (onSnd c).
Proof. intros [a s] Hs. rewrite onSnd_run. simpl in *. exact Hs. Qed.

Lemma setPublicModulus_preserves v : preserves ModulusOk (setPublicModulus v).
Proof.
  intros this Hthis. destruct v as [m| | | |]; try exact Hthis.
  unfold setPublicModulus.
  destruct (hasLeadingZero m) eqn:Hz; [exact Hthis|].
  destruct (lengthOutOfRange m) eqn:Hl; [exact Hthis|].
  intros m' Hm'. simpl in Hm'. injection Hm' as <-. split.
  - apply hasLeadingZero_false. exact Hz.
  - apply lengthOutOfRange_false. exact Hl.
Qed.

Lemma setSignature_preserves v : preserves ModulusOk (setSignature v).
Proof.
  intros this Hthis. destruct v as [s| | | |]; exact Hthis.
Qed.

Lemma parsePayload_preserves :
  preserves (fun s : t * Reader => ModulusOk (fst s)) parsePayload.
Proof.
  unfold parsePayload.
  apply preserves_bind; [apply preserves_onSnd|]. intros m.
  apply preserves_bind;
    [apply preserves_onFst, setPublicModulus_preserves|]. intros _.
  apply preserves_bind; [apply preserves_onSnd|]. intros s.
  apply preserves_onFst, setSignature_preserves.
Qed.

Lemma runCall_preserves this c : ModulusOk this -> ModulusOk (runCall this c).
Proof.
  intros H. destruct c as [v|v|reader]; simpl.
  - apply setPublicModulus_preserves. exact H.
  - apply setSignature_preserves. exact H.
  - pose proof parsePayload_preserves as Hp.
    exact (Hp (this, reader) H).
Qed.

Lemma runCalls_preserves calls : forall this,
  ModulusOk this -> ModulusOk (runCalls calls this).
Proof.
  induction calls as [|c calls IH]; intros this H; simpl.
  - exact H.
  - apply IH, runCall_preserves, H.
Qed.

(** C2, the claim as stated fails: after [setPublicModulus] with a
    128-octet modulus and [setSignature] with a 129-octet signature both
    fields are set and their lengths differ; [parsePayload] reaches the
    same state from the corresponding payload. *)
Lemma C2_signature_length_counterexample :
  let this :=
    runCalls [CallSetPublicModulus (JsBuffer m128);
              CallSetSignature (JsBuffer s129)] constructor in
  let parsed :=
    runCalls [CallParsePayload
                (fromBuffer (encodeVarOctetString m128
                             ++ encodeVarOctetString s129))] constructor in
  modulus this = Some m128 /\ signature this = Some s129 /\
  parsed = this /\
  length s129 <> length m128.
Proof. vm_compute. repeat split; try reflexivity. discriminate. Qed.

(** C2 as amended: after any sequence of [setPublicModulus],
    [setSignature] and [parsePayload] calls, a modulus that is set has
    128 to 512 octets and a first octet that is not zero; and
    [setSignature] then stores any buffer as the signature, leaving the
    modulus as it is, so that the two lengths are equal exactly when the
    caller supplies a signature as long as the modulus. *)
Theorem C2_reachable_fulfillment (calls : list Call) :
  let this := runCalls calls constructor in
  (forall m, modulus this = Some m -> ValidModulus m) /\
  (forall s,
      setSignature (JsBuffer s) this
      = (Ok tt, {| modulus := modulus this; signature := Some s |})) /\
  (forall m s,
      modulus this = Some m ->
      let this' := runCall this (CallSetSignature (JsBuffer s)) in
      modulus this' = Some m /\ signature this' = Some s).
Proof.
  intros this. split; [|split].
  - apply runCalls_preserves. intros m H. discriminate H.
  - intros s. reflexivity.
  - intros m s Hm. simpl. split; [exact Hm|reflexivity].
Qed.

(** With the longer signature the payload has 261 octets, one more than
    [calculateMaxFulfillmentLength] announces for the condition. *)
Remark long_signature_exceeds_bound :
  let this := {| modulus := Some m128; signature := Some s129 |} in
  calculateMaxFulfillmentLength this = Ok 260%N /\
  exists payload, serializePayload this = Ok payload /\ length payload = 261.
Proof.
  split; [reflexivity|].
  exists (encodeVarOctetString m128 ++ encodeVarOctetString s129).
  split; reflexivity.
Qed.

Lemma C2_reachable_fulfillment_witness :
  ValidModulus m128 /\
  signature
    (runCall (runCalls [CallSetPublicModulus (JsBuffer m128)] constructor)
       (CallSetSignature (JsBuffer s128)))
  = Some s128.
Proof.
  pose proof (C2_reachable_fulfillment [CallSetPublicModulus (JsBuffer m128)])
    as [H1 [_ H3]].
  split.
  - apply (H1 m128). reflexivity.
  - apply (H3 m128 s128). reflexivity.
Defined.

Lemma small_length_lt (b : Buffer) :
  length b <= 512 -> (N.of_nat (length b) < 2 ^ 1016)%N.
Proof.
  intros H. apply N.lt_le_trans with (2 ^ 10)%N.
  - change (2 ^ 10)%N with 1024%N. lia.
  - apply N.pow_le_mono_r; lia.
Qed.

(** The RSA payload parses back to the fields it was written from,
    whatever the receiving object held before. *)
Lemma rsa_parse_write (this0 : t) (m s : Buffer) :
  ValidModulus m ->
  (N.of_nat (length s) < 2 ^ 1016)%N ->
  parsePayload
    (this0, fromBuffer (encodeVarOctetString m ++ encodeVarOctetString s))
  = (Ok tt, ({| modulus := Some m; signature := Some s |}, [])).
Proof.
  intros Hm Hs. unfold parsePayload, fromBuffer.
  assert (Hml : (N.of_nat (length m) < 2 ^ 1016)%N)
    by (apply small_length_lt; destruct Hm; lia).
  rewrite bind_Ok with (a := m) (s' := (this0, encodeVarOctetString s)).
  2:{ rewrite onSnd_run, readVarOctetString_encode by assumption.
      reflexivity. }
  rewrite bind_Ok with (a := tt)
    (s' := ({| modulus := Some m; signature := signature this0 |},
            encodeVarOctetString s)).
  2:{ rewrite onFst_run, setPublicModulus_valid by assumption.
      reflexivity. }
  cbv beta.
  rewrite bind_Ok with (a := s)
    (s' := ({| modulus := Some m; signature := signature this0 |},
            @nil byte)).
  2:{ rewrite onSnd_run.
      rewrite <- (app_nil_r (encodeVarOctetString s)).
      rewrite readVarOctetString_encode by assumption. reflexivity. }
  cbv beta. rewrite onFst_run. reflexivity.
Qed.

Section Verify.

Variable rsa_verify : option Buffer -> Buffer -> option Buffer -> Result bool.

(** C6 as amended: on a buffer, [validate] returns [true] exactly when
    the RSA-PSS verification of the stored signature against the message
    and the stored modulus returns a true value; it throws
    [ValidationError] when the verification returns a false value; what
    the verification itself throws is passed on unchanged; and
    [validate] returns no value other than [true]. *)
Theorem C6_rsa_validate (msg : Buffer) (this : t) :
  (validate rsa_verify (JsBuffer msg) this = Ok true <->
   rsa_verify (modulus this) msg (signature this) = Ok true) /\
  (rsa_verify (modulus this) msg (signature this) = Ok false ->
   validate rsa_verify (JsBuffer msg) this = Throw ValidationError) /\
  (forall e, rsa_verify (modulus this) msg (signature this) = Throw e ->
   validate rsa_verify (JsBuffer msg) this = Throw e) /\
  (forall r, validate rsa_verify (JsBuffer msg) this = Ok r -> r = true).
Proof.
  unfold validate.
  destruct (rsa_verify (modulus this) msg (signature this)) as [[|]|e];
    simpl; repeat split; congruence.
Qed.

End Verify.

(** C6, the claim as stated fails: with a verifier that throws a
    [TypeError] on null fields, [validate] on a buffer and a fulfillment
    that was never populated neither returns [true] nor throws
    [ValidationError]; it throws the verifier's [TypeError]. *)
Lemma C6_rsa_validate_counterexample :
  let result :=
    validate RsaVerifierSample.refusingVerify (JsBuffer []) constructor in
  result = Throw TypeError /\
  result <> Ok true /\
  result <> Throw ValidationError.
Proof. repeat split; discriminate. Qed.

Lemma C6_rsa_validate_witness :
  validate (fun _ _ _ => Ok true) (JsBuffer []) constructor = Ok true /\
  validate RsaVerifierSample.refusingVerify (JsBuffer [])
    {| modulus := Some m128; signature := Some s128 |}
  = Throw ValidationError /\
  validate RsaVerifierSample.refusingVerify (JsBuffer []) constructor
  = Throw TypeError.
Proof.
  split; [|split].
  - apply (proj1 (C6_rsa_validate (fun _ _ _ => Ok true) [] constructor)).
    reflexivity.
  - apply (proj1 (proj2 (C6_rsa_validate RsaVerifierSample.refusingVerify []
                           {| modulus := Some m128;
                              signature := Some s128 |}))).
    reflexivity.
  - apply (proj1 (proj2 (proj2 (C6_rsa_validate
                                  RsaVerifierSample.refusingVerify []
                                  constructor)))).
    reflexivity.
Defined.

Section Sign.

Variable rsa_sign : string -> Buffer -> Result Buffer.
Variable modulusFromPrivateKey : string -> Result Buffer.

(** With the modulus unset, [sign] stores the modulus extracted from
    the private key before it signs, whether or not signing then
    succeeds. *)
Lemma sign_sets_modulus message privateKey this m :
  modulus this = None ->
  modulusFromPrivateKey privateKey = Ok m ->
  ValidModulus m ->
  modulus (snd (sign rsa_sign modulusFromPrivateKey message privateKey this))
  = Some m.
Proof.
  intros Hn Hk Hv. unfold sign, bind, get, liftR.
  rewrite Hn, Hk. rewrite setPublicModulus_valid by assumption.
  destruct (rsa_sign privateKey message); reflexivity.
Qed.

(** When the signer throws, so does [sign], and the stored signature
    is the one from before. *)
Lemma sign_propagates message privateKey this e :
  rsa_sign privateKey message = Throw e ->
  exists e',
    fst (sign rsa_sign modulusFromPrivateKey message privateKey this)
    = Throw e' /\
    signature (snd (sign rsa_sign modulusFromPrivateKey message
                      privateKey this)) = signature this.
Proof.
  intros Hs. unfold sign, bind, get, liftR, ret.
  destruct (modulus this) as [m0|].
  - rewrite Hs. simpl. eauto.
  - destruct (modulusFromPrivateKey privateKey) as [m|e0]; [|simpl; eauto].
    unfold setPublicModulus, bind, get, put, throw.
    destruct (hasLeadingZero m); [simpl; eauto|].
    destruct (lengthOutOfRange m); [simpl; eauto|].
    rewrite Hs. simpl. eauto.
Qed.

End Sign.

Section SpecifiedSigner.
Import RsaCrypto.

Variable berParse : string -> Result RsaPrivateKey.
Variable pssSign : RsaPrivateKey -> Buffer -> Buffer.

(** C7: with the signer of the specification, [sign] with a private
    key whose public exponent is not 65537 throws and stores no
    signature; and when the modulus is unset, [sign] first stores the
    modulus extracted from the private key. *)
Theorem C7_rsa_sign_exponent (message : Buffer) (privateKey : string)
    (key : RsaPrivateKey) (this : t) :
  berParse privateKey = Ok key ->
  let run :=
    RsaSha256.sign (RsaCrypto.sign berParse pssSign)
      (RsaCrypto.modulusFromPrivateKey berParse)
      message privateKey this in
  (key_e key <> 65537%N ->
   exists e, fst run = Throw e /\ signature (snd run) = signature this) /\
  (modulus this = None -> ValidModulus (key_n key) ->
   modulus (snd run) = Some (key_n key)).
Proof.
  intros Hkey run. split.
  - intros He. apply sign_propagates with (e := Error).
    unfold RsaCrypto.sign. rewrite Hkey.
    apply N.eqb_neq in He. unfold PUBLIC_EXPONENT. rewrite He. reflexivity.
  - intros Hn Hv. apply sign_sets_modulus; try assumption.
    unfold RsaCrypto.modulusFromPrivateKey. rewrite Hkey. reflexivity.
Qed.

End SpecifiedSigner.

Lemma C7_rsa_sign_exponent_witness :
  let run :=
    RsaSha256.sign
      (RsaCrypto.sign (fun _ => Ok RsaCrypto.key_e3) (fun _ _ => s128))
      (RsaCrypto.modulusFromPrivateKey (fun _ => Ok RsaCrypto.key_e3))
      [] EmptyString constructor in
  (exists e, fst run = Throw e /\ signature (snd run) = None) /\
  modulus (snd run) = Some m128.
Proof.
  pose proof (@C7_rsa_sign_exponent (fun _ => Ok RsaCrypto.key_e3) (fun _ _ => s128)
                [] EmptyString RsaCrypto.key_e3 constructor eq_refl) as [H1 H2].
  split.
  - apply H1. discriminate.
  - apply H2; [reflexivity | exact ValidModulus_m128].
Defined.

End RsaFacts.

(** ** Ed25519 *)

Module Ed25519Facts.
Import Ed25519.

Lemma setPublicKey_Ok k this0 this :
  setPublicKey (JsBuffer k) this0 = (Ok tt, this) ->
  publicKey this = Some k /\ length k = 32.
Proof.
  unfold setPublicKey.
  destruct (length k =? 32)%nat eqn:E; simpl.
  - unfold bind, get, put. intros H. injection H as <-.
    split; [reflexivity|]. apply Nat.eqb_eq. exact E.
  - unfold throw. discriminate.
Qed.

(** C4: with a public key set, [generateHash] returns that key itself,
    not a digest of it, and [calculateMaxFulfillmentLength] returns the
    constant 96 = 32 + 64; a key stored by [setPublicKey] has 32
    octets. *)
Theorem C4_ed25519_hash_and_length (this : t) (k : Buffer) :
  (publicKey this = Some k ->
   generateHash this = Ok k /\
   calculateMaxFulfillmentLength this = Ok 96%N /\
   FULFILLMENT_LENGTH = 32 + 64) /\
  (forall this0, setPublicKey (JsBuffer k) this0 = (Ok tt, this) ->
   publicKey this = Some k /\ length k = 32).
Proof.
  split.
  - intros Hk. unfold generateHash. rewrite Hk. repeat split.
  - intros this0. apply setPublicKey_Ok.
Qed.

Lemma C4_ed25519_hash_and_length_witness :
  generateHash {| publicKey := Some k32; signature := None |} = Ok k32 /\
  length k32 = 32.
Proof.
  pose proof (C4_ed25519_hash_and_length
                {| publicKey := Some k32; signature := None |} k32)
    as [H1 H2].
  split.
  - exact (proj1 (H1 eq_refl)).
  - exact (proj2 (H2 constructor eq_refl)).
Defined.

Lemma ed25519_write (k s : Buffer) :
  length k = 32 -> length s = 64 ->
  serializePayload {| publicKey := Some k; signature := Some s |}
  = Ok (k ++ s).
Proof.
  intros Hk Hs.
  unfold serializePayload, writePayload, writeField, bind. simpl.
  unfold PUBKEY_LENGTH, SIGNATURE_LENGTH. rewrite Hk, Hs. reflexivity.
Qed.

Lemma ed25519_parse (this0 : t) (k s : Buffer) :
  length k = 32 -> length s = 64 ->
  parsePayload (this0, fromBuffer (k ++ s))
  = (Ok tt, ({| publicKey := Some k; signature := Some s |}, [])).
Proof.
  intros Hk Hs. unfold parsePayload, fromBuffer, readOctetString.
  unfold PUBKEY_LENGTH, SIGNATURE_LENGTH.
  rewrite bind_Ok with (a := k) (s' := (this0, s)).
  2:{ rewrite RsaFacts.onSnd_run, <- Hk, OerFacts.read_app. reflexivity. }
  cbv beta.
  rewrite bind_Ok with (a := tt)
    (s' := ({| publicKey := Some k; signature := signature this0 |}, s)).
  2:{ rewrite RsaFacts.onFst_run. unfold setPublicKey. rewrite Hk.
      reflexivity. }
  cbv beta.
  rewrite bind_Ok with (a := s)
    (s' := ({| publicKey := Some k; signature := signature this0 |},
            @nil byte)).
  2:{ rewrite RsaFacts.onSnd_run, <- Hs, OerFacts.read_all.
      reflexivity. }
  cbv beta. rewrite RsaFacts.onFst_run. unfold setSignature. rewrite Hs.
  reflexivity.
Qed.

Section TwoLibraries.

Variable native : NativeLib.
Variable nacl : NaclLib.

(** The two branches of [sign] and of [validate] add nothing of their
    own: where the native module and the portable library return the
    same key pair, signature and verdict, the fulfillment ends in the
    same state and [validate] gives the same result. *)
Lemma sign_same_on_equal_outputs (message privateKey : Buffer) (this : t) :
  kp_publicKey (MakeKeypair native privateKey)
  = kp_publicKey (fromSeed nacl privateKey) ->
  Sign native message (MakeKeypair native privateKey)
  = detached nacl message (kp_secretKey (fromSeed nacl privateKey)) ->
  sign (Some native) nacl (JsBuffer message) (JsBuffer privateKey) this
  = sign None nacl (JsBuffer message) (JsBuffer privateKey) this.
Proof.
  intros Hpk Hsig. unfold sign.
  destruct (negb (length privateKey =? 32)%nat); [reflexivity|].
  rewrite Hpk, Hsig. reflexivity.
Qed.

Lemma validate_same_on_equal_verdicts (message : Buffer) (this : t) :
  Verify native message (signature this) (publicKey this)
  = detached_verify nacl message (signature this) (publicKey this) ->
  validate (Some native) nacl (JsBuffer message) this
  = validate None nacl (JsBuffer message) this.
Proof. intros H. unfold validate. rewrite H. reflexivity. Qed.

End TwoLibraries.

End Ed25519Facts.

(** ** Both types *)

Module PayloadFacts.

(** C5: the payload written by [writePayload] of an RSA-SHA-256
    fulfillment with a valid modulus and a signature parses back, with
    [parsePayload], to the same fulfillment; so does the payload of an
    Ed25519 fulfillment with a 32-octet key and a 64-octet signature.
    The object that receives the parse may hold anything before.  (A
    signature needs a length below 2^1016, which every buffer has, for
    its length prefix to fit the one-octet length of a VarUInt.) *)
Theorem C5_payload_round_trip :
  (forall (this this0 : RsaSha256.t) (m s : Buffer),
      RsaSha256.modulus this = Some m ->
      RsaSha256.signature this = Some s ->
      ValidModulus m ->
      (N.of_nat (length s) < 2 ^ 1016)%N ->
      exists payload,
        RsaSha256.serializePayload this = Ok payload /\
        payload = encodeVarOctetString m ++ encodeVarOctetString s /\
        RsaSha256.parsePayload (this0, fromBuffer payload)
        = (Ok tt, (this, []))) /\
  (forall (this this0 : Ed25519.t) (k s : Buffer),
      Ed25519.publicKey this = Some k ->
      Ed25519.signature this = Some s ->
      length k = 32 -> length s = 64 ->
      exists payload,
        Ed25519.serializePayload this = Ok payload /\
        payload = k ++ s /\
        Ed25519.parsePayload (this0, fromBuffer payload)
        = (Ok tt, (this, []))).
Proof.
  split.
  - intros [m' s'] this0 m s Hm Hs Hv Hl. simpl in Hm, Hs. subst m' s'.
    exists (encodeVarOctetString m ++ encodeVarOctetString s).
    split; [reflexivity|]. split; [reflexivity|].
    apply RsaFacts.rsa_parse_write; assumption.
  - intros [k' s'] this0 k s Hk Hs Hkl Hsl. simpl in Hk, Hs. subst k' s'.
    exists (k ++ s). split; [apply Ed25519Facts.ed25519_write; assumption|].
    split; [reflexivity|].
    apply Ed25519Facts.ed25519_parse; assumption.
Qed.

Lemma C5_payload_round_trip_witness :
  (exists payload,
      RsaSha256.serializePayload
        {| RsaSha256.modulus := Some m128; RsaSha256.signature := Some s129 |}
      = Ok payload /\
      payload = encodeVarOctetString m128 ++ encodeVarOctetString s129 /\
      RsaSha256.parsePayload (RsaSha256.constructor, fromBuffer payload)
      = (Ok tt,
         ({| RsaSha256.modulus := Some m128;
             RsaSha256.signature := Some s129 |}, []))) /\
  (exists payload,
      Ed25519.serializePayload
        {| Ed25519.publicKey := Some k32; Ed25519.signature := Some s64 |}
      = Ok payload /\
      payload = k32 ++ s64 /\
      Ed25519.parsePayload (Ed25519.constructor, fromBuffer payload)
      = (Ok tt,
         ({| Ed25519.publicKey := Some k32;
             Ed25519.signature := Some s64 |}, []))).
Proof.
  destruct C5_payload_round_trip as [Hrsa Hed].
  split.
  - apply (Hrsa {| RsaSha256.modulus := Some m128;
                   RsaSha256.signature := Some s129 |}
             RsaSha256.constructor m128 s129 eq_refl eq_refl).
    + exact RsaFacts.ValidModulus_m128.
    + apply RsaFacts.small_length_lt. unfold s129. rewrite repeat_length. lia.
  - apply (Hed {| Ed25519.publicKey := Some k32;
                  Ed25519.signature := Some s64 |}
             Ed25519.constructor k32 s64 eq_refl eq_refl);
      reflexivity.
Defined.

(** C10: [Ed25519.calculateMaxFulfillmentLength] returns 96 on every
    object, the freshly constructed one included, and never throws;
    [RsaSha256.calculateMaxFulfillmentLength] throws [MissingDataError]
    when the modulus is unset. *)
Theorem C10_max_length_unpopulated :
  (forall this : Ed25519.t,
      Ed25519.calculateMaxFulfillmentLength this = Ok 96%N) /\
  Ed25519.calculateMaxFulfillmentLength Ed25519.constructor = Ok 96%N /\
  (forall s : option Buffer,
      RsaSha256.calculateMaxFulfillmentLength
        {| RsaSha256.modulus := None; RsaSha256.signature := s |}
      = Throw MissingDataError) /\
  RsaSha256.calculateMaxFulfillmentLength RsaSha256.constructor
  = Throw MissingDataError.
Proof. repeat split. Qed.

End PayloadFacts.

(** ** The Ed25519 test vectors *)

Module VectorFacts.
Import Fulfillment.

(** SHA-512 of the empty message begins cf 83 e1 35 7e ef b8 bd. *)
Example sha512_empty :
  firstn 8 (Sha512.sha512 [])
  = [xcf; x83; xe1; x35; x7e; xef; xb8; xbd].
Proof. vm_compute. reflexivity. Qed.

(** C9: signing the empty message with the all-zero 32-octet seed
    succeeds and gives a fulfillment whose condition URI and whose
    fulfillment URI are the two strings of the test suite, and
    [validateFulfillment] on this pair with the empty message returns
    [true]. *)
Theorem C9_ed25519_zero_key_vector :
  let run :=
    Ed25519.sign None Ed25519Ref.nacl (JsBuffer []) (JsBuffer (repeat x00 32))
      Ed25519.constructor in
  fst run = Ok tt /\
  getConditionUri (cls := PortableEd25519) (snd run)
  = Ok "cc:4:20:O2onvM62pC1io6jQKm8Nc2UyFXcd4kOmOsBIoYtZ2ik:96"%string /\
  serializeUri (cls := PortableEd25519) (snd run)
  = Ok "cf:4:O2onvM62pC1io6jQKm8Nc2UyFXcd4kOmOsBIoYtZ2imPiVs8r-LJUGA50OKmY4JWgARnT-jSN3hQkuQNaq9IPk_GAWhwXzHxAVlhOM4hqjV8DTKgZPQj3D7kqjq_U_gD"%string /\
  validateFulfillment (cls := PortableEd25519)
    ZeroKeyVector.fulfillmentUri ZeroKeyVector.conditionUri
    (JsBuffer ZeroKeyVector.message)
  = Ok true.
Proof.
  intros run.
  assert (Hrun : run = ZeroKeyVector.signed) by reflexivity.
  rewrite Hrun. clear run Hrun.
  split; [vm_compute; reflexivity|].
  split; [vm_compute; reflexivity|].
  split; vm_compute; reflexivity.
Qed.

(** The same for the second vector of the suite. *)
Example ones_key_vector :
  getConditionUri (cls := PortableEd25519) (snd OnesKeyVector.signed)
  = Ok OnesKeyVector.conditionUri /\
  serializeUri (cls := PortableEd25519) (snd OnesKeyVector.signed)
  = Ok OnesKeyVector.fulfillmentUri /\
  validateFulfillment (cls := PortableEd25519)
    OnesKeyVector.fulfillmentUri OnesKeyVector.conditionUri
    (JsBuffer OnesKeyVector.message)
  = Ok true.
Proof.
  split; [vm_compute; reflexivity|].
  split; vm_compute; reflexivity.
Qed.

(** A changed message, or a condition with another length bound, is
    refused. *)
Example zero_key_vector_refusals :
  validateFulfillment (cls := PortableEd25519)
    ZeroKeyVector.fulfillmentUri ZeroKeyVector.conditionUri (JsBuffer [x01])
  = Throw ValidationError /\
  validateFulfillment (cls := PortableEd25519)
    ZeroKeyVector.fulfillmentUri
    "cc:4:20:O2onvM62pC1io6jQKm8Nc2UyFXcd4kOmOsBIoYtZ2ik:95"
    (JsBuffer ZeroKeyVector.message)
  = Throw ConditionMismatchError.
Proof. split; vm_compute; reflexivity. Qed.

End VectorFacts.


(** * Further properties of the two classes *)

(** ** RSA-SHA-256: payloads and their lengths *)

Module RsaPayloadFacts.
Import RsaSha256 OerFacts RsaFacts Payloads.

Lemma writePayload_populated (this : t) (w : Writer) (m s : Buffer) :
  modulus this = Some m -> signature this = Some s ->
  writePayload this w
  = (Ok tt, w ++ encodeVarOctetString m ++ encodeVarOctetString s).
Proof.
  intros Hm Hs. unfold writePayload, writeCommonHeader.
  rewrite Hs, Hm.
  cbv [bind writeVarOctetString Writer_OerWriter write].
  rewrite app_assoc. reflexivity.
Qed.

(** [writePayload] needs both fields: it returns exactly when the
    signature and the modulus are set, throws [MissingDataError]
    otherwise, and then has written nothing. *)
Theorem writePayload_needs_both_fields (this : t) (w : Writer) :
  (forall m s, modulus this = Some m -> signature this = Some s ->
     writePayload this w
     = (Ok tt, w ++ encodeVarOctetString m ++ encodeVarOctetString s)) /\
  (modulus this = None \/ signature this = None ->
     writePayload this w = (Throw MissingDataError, w)).
Proof.
  split.
  - intros m s Hm Hs. apply writePayload_populated; assumption.
  - intros H. unfold writePayload, writeCommonHeader.
    destruct (signature this) as [s|]; [|reflexivity].
    destruct H as [H|H]; [|discriminate H].
    rewrite H. reflexivity.
Qed.

Lemma writePayload_needs_both_fields_witness :
  writePayload {| modulus := Some m128; signature := Some s128 |} newWriter
  = (Ok tt, newWriter ++ encodeVarOctetString m128
                       ++ encodeVarOctetString s128) /\
  writePayload {| modulus := Some m128; signature := None |} [x01]
  = (Throw MissingDataError, [x01]).
Proof.
  split.
  - apply (proj1 (writePayload_needs_both_fields
                    {| modulus := Some m128; signature := Some s128 |}
                    newWriter) m128 s128); reflexivity.
  - apply (proj2 (writePayload_needs_both_fields
                    {| modulus := Some m128; signature := None |} [x01])).
    right. reflexivity.
Defined.

(** The hash payload is the length-prefixed modulus alone: it does not
    change with the signature, and the fulfillment payload begins with
    it. *)
Theorem hash_payload_ignores_signature (m : Buffer) (s1 s2 : option Buffer) :
  rsaHashPayload {| modulus := Some m; signature := s1 |}
  = Ok (encodeVarOctetString m) /\
  rsaHashPayload {| modulus := Some m; signature := s1 |}
  = rsaHashPayload {| modulus := Some m; signature := s2 |} /\
  (forall s, s1 = Some s ->
     serializePayload {| modulus := Some m; signature := s1 |}
     = Ok (encodeVarOctetString m ++ encodeVarOctetString s)).
Proof.
  split; [reflexivity|]. split; [reflexivity|].
  intros s ->. reflexivity.
Qed.

Lemma hash_payload_ignores_signature_witness :
  serializePayload {| modulus := Some m128; signature := Some s129 |}
  = Ok (encodeVarOctetString m128 ++ encodeVarOctetString s129).
Proof.
  exact (proj2 (proj2 (hash_payload_ignores_signature m128 (Some s129) None))
           s129 eq_refl).
Defined.

(** *** The length prefix grows with the length *)

Lemma size_le_mono a b : (a <= b -> N.size a <= N.size b)%N.
Proof.
  intros H.
  destruct (N.eq_dec a 0) as [->|Ha]; [simpl; lia|].
  rewrite !N.size_log2 by lia.
  apply -> N.succ_le_mono. apply N.log2_le_mono. exact H.
Qed.

Lemma byteLength_le_mono a b : (a <= b -> byteLength a <= byteLength b)%N.
Proof.
  intros H. unfold byteLength. apply N.Div0.div_le_mono.
  pose proof (size_le_mono H). lia.
Qed.

Lemma measureVarOctetString_lt a b :
  (a < b <-> measureVarOctetString a < measureVarOctetString b)%N.
Proof.
  unfold measureVarOctetString, measureVarUInt. split.
  - intros H. assert (byteLength a <= byteLength b)%N
      by (apply byteLength_le_mono; lia). lia.
  - intros H. destruct (N.lt_ge_cases a b) as [Hlt|Hge]; [exact Hlt|].
    assert (byteLength b <= byteLength a)%N
      by (apply byteLength_le_mono; exact Hge). lia.
Qed.

Lemma calculateMaxFulfillmentLength_value (this : t) (m : Buffer) :
  modulus this = Some m ->
  calculateMaxFulfillmentLength this
  = Ok (2 * measureVarOctetString (N.of_nat (length m)))%N.
Proof.
  intros Hm. unfold calculateMaxFulfillmentLength, writeCommonHeader.
  rewrite Hm.
  cbv [bind writeVarOctetString Predictor_OerWriter skip getSize newPredictor].
  f_equal. lia.
Qed.

Lemma Ok_inj {A} (a b : A) : Ok a = Ok b -> a = b.
Proof. intros H. injection H as H. exact H. Qed.

(** The payload of a populated fulfillment fits the length that
    [calculateMaxFulfillmentLength] announces exactly when the signature
    is not longer than the modulus. *)
Theorem payload_within_max_length (this : t) (m s payload : Buffer) (max : N) :
  modulus this = Some m -> signature this = Some s ->
  serializePayload this = Ok payload ->
  calculateMaxFulfillmentLength this = Ok max ->
  ((N.of_nat (length payload) <= max)%N <-> length s <= length m).
Proof.
  intros Hm Hs Hp Hmax.
  rewrite (calculateMaxFulfillmentLength_value this Hm) in Hmax.
  apply Ok_inj in Hmax. subst max.
  unfold serializePayload in Hp.
  rewrite (writePayload_populated this newWriter Hm Hs) in Hp.
  apply Ok_inj in Hp. subst payload.
  unfold getBuffer, newWriter. rewrite app_nil_l.
  rewrite length_app, Nat2N.inj_add, !length_encodeVarOctetString.
  pose proof (measureVarOctetString_lt (N.of_nat (length m))
                (N.of_nat (length s))) as Hlt.
  split.
  - intros H. destruct (Nat.le_gt_cases (length s) (length m)) as [Hle|Hgt];
      [exact Hle|].
    exfalso. assert (N.of_nat (length m) < N.of_nat (length s))%N by lia.
    apply Hlt in H0. lia.
  - intros H. destruct (Nat.eq_dec (length s) (length m)) as [E|E].
    + rewrite E. lia.
    + assert (N.of_nat (length s) < N.of_nat (length m))%N by lia.
      apply measureVarOctetString_lt in H0. lia.
Qed.

Lemma payload_within_max_length_witness :
  (N.of_nat (length (encodeVarOctetString m128 ++ encodeVarOctetString s128))
   <= 260)%N <-> length s128 <= length m128.
Proof.
  exact (@payload_within_max_length
           {| modulus := Some m128; signature := Some s128 |}
           m128 s128 _ 260%N eq_refl eq_refl eq_refl eq_refl).
Defined.

Lemma byteLength_128_255 n : (128 <= n <= 255 -> byteLength n = 1)%N.
Proof.
  intros H. unfold byteLength.
  rewrite N.size_log2 by lia.
  rewrite (N.log2_unique n 7) by (simpl; lia). reflexivity.
Qed.

Lemma byteLength_256_512 n : (256 <= n <= 512 -> byteLength n = 2)%N.
Proof.
  intros H. unfold byteLength.
  rewrite N.size_log2 by lia.
  destruct (N.eq_dec n 512) as [->|Hn]; [reflexivity|].
  rewrite (N.log2_unique n 8) by (simpl; lia). reflexivity.
Qed.

(** For a modulus that [setPublicModulus] accepts, of n octets, the
    announced maximum is 2n + 4 up to 255 octets and 2n + 6 above; it
    lies between 260 and 1030. *)
Theorem max_length_of_valid_modulus (this : t) (m : Buffer) :
  modulus this = Some m -> ValidModulus m ->
  let n := N.of_nat (length m) in
  exists max,
    calculateMaxFulfillmentLength this = Ok max /\
    max = (if n <=? 255 then 2 * n + 4 else 2 * n + 6)%N /\
    (260 <= max <= 1030)%N.
Proof.
  intros Hm [_ Hl] n.
  exists (2 * measureVarOctetString n)%N.
  split; [apply calculateMaxFulfillmentLength_value; exact Hm|].
  unfold measureVarOctetString, measureVarUInt.
  destruct (n <=? 255)%N eqn:E.
  - apply N.leb_le in E.
    rewrite byteLength_128_255 by (subst n; lia). subst n. lia.
  - apply N.leb_gt in E.
    rewrite byteLength_256_512 by (subst n; lia). subst n. lia.
Qed.

Lemma max_length_of_valid_modulus_witness :
  exists max,
    calculateMaxFulfillmentLength {| modulus := Some m128; signature := None |}
    = Ok max /\
    max = 260%N /\ (260 <= max <= 1030)%N.
Proof.
  exact (@max_length_of_valid_modulus
           {| modulus := Some m128; signature := None |} m128 eq_refl
           ValidModulus_m128).
Defined.

(** A predictor counts what a writer writes: run on both, [writePayload]
    throws on both or on neither, and the counter advances by the number
    of octets appended. *)
Theorem predictor_counts_payload (this : t) (w : Writer) (p : Predictor) :
  fst (writePayload this w) = fst (writePayload this p) /\
  (getSize (snd (writePayload this p)) + N.of_nat (length w)
   = getSize p + N.of_nat (length (getBuffer (snd (writePayload this w)))))%N.
Proof.
  unfold writePayload, writeCommonHeader, getSize, getBuffer.
  destruct (signature this) as [s|]; [|split; [reflexivity|simpl; lia]].
  destruct (modulus this) as [m|]; [|split; [reflexivity|simpl; lia]].
  cbv [bind writeVarOctetString Predictor_OerWriter Writer_OerWriter skip
       write fst snd].
  split; [reflexivity|].
  rewrite !length_app, !Nat2N.inj_add, !length_encodeVarOctetString. lia.
Qed.

End RsaPayloadFacts.

(** ** RSA-SHA-256: parsing and signing step by step *)

Module RsaStepFacts.
Import RsaSha256 OerFacts RsaFacts.

Lemma parsePayload_run (this0 : t) (r : Reader) :
  parsePayload (this0, r)
  = match readVarOctetString r with
    | (Throw e, r1) => (Throw e, (this0, r1))
    | (Ok m, r1) =>
        match setPublicModulus (JsBuffer m) this0 with
        | (Throw e, this1) => (Throw e, (this1, r1))
        | (Ok _, this1) =>
            match readVarOctetString r1 with
            | (Throw e, r2) => (Throw e, (this1, r2))
            | (Ok s, r2) =>
                (Ok tt, ({| modulus := modulus this1; signature := Some s |},
                         r2))
            end
        end
    end.
Proof.
  unfold parsePayload, bind. rewrite onSnd_run.
  destruct (readVarOctetString r) as [[m|e] r1]; cbn [fst snd];
    [|reflexivity].
  rewrite onFst_run.
  destruct (setPublicModulus (JsBuffer m) this0) as [[u|e] this1];
    cbn [fst snd]; [|reflexivity].
  rewrite onSnd_run.
  destruct (readVarOctetString r1) as [[s|e] r2]; cbn [fst snd];
    [|reflexivity].
  rewrite onFst_run. reflexivity.
Qed.

(** When the modulus cannot be read, or is read and is not one that
    [setPublicModulus] accepts, [parsePayload] throws and the
    fulfillment is as it was: neither field has changed. *)
Theorem parsePayload_rejected_modulus (this0 : t) (r : Reader) :
  (forall e r1, readVarOctetString r = (Throw e, r1) ->
     parsePayload (this0, r) = (Throw e, (this0, r1))) /\
  (forall m r1, readVarOctetString r = (Ok m, r1) -> ~ ValidModulus m ->
     parsePayload (this0, r) = (Throw Error, (this0, r1))).
Proof.
  split.
  - intros e r1 H. rewrite parsePayload_run, H. reflexivity.
  - intros m r1 H Hm. rewrite parsePayload_run, H.
    rewrite setPublicModulus_invalid by assumption. reflexivity.
Qed.

Lemma parsePayload_rejected_modulus_witness :
  parsePayload ({| modulus := Some m128; signature := Some s128 |}, [])
  = (Throw ParseError,
     ({| modulus := Some m128; signature := Some s128 |}, [])) /\
  parsePayload (constructor, fromBuffer (encodeVarOctetString [x00; x01]))
  = (Throw Error, (constructor, [])).
Proof.
  split.
  - apply (proj1 (parsePayload_rejected_modulus
                    {| modulus := Some m128; signature := Some s128 |} [])).
    reflexivity.
  - apply (proj2 (parsePayload_rejected_modulus constructor
                    (fromBuffer (encodeVarOctetString [x00; x01])))
             [x00; x01]).
    + reflexivity.
    + intros [Hz _]. exact (Hz [x01] eq_refl).
Defined.

(** [parsePayload] is not atomic: when the modulus is accepted and the
    signature cannot be read, it throws after it has replaced the
    modulus; the signature stays the one from before. *)
Theorem parsePayload_keeps_modulus_on_failure (this0 : t) (r r1 r2 : Reader)
    (m : Buffer) (e : Exn) :
  readVarOctetString r = (Ok m, r1) -> ValidModulus m ->
  readVarOctetString r1 = (Throw e, r2) ->
  parsePayload (this0, r)
  = (Throw e, ({| modulus := Some m; signature := signature this0 |}, r2)).
Proof.
  intros H1 Hm H2. rewrite parsePayload_run, H1.
  rewrite setPublicModulus_valid by assumption. rewrite H2. reflexivity.
Qed.

Lemma parsePayload_keeps_modulus_on_failure_witness :
  parsePayload
    ({| modulus := None; signature := Some s129 |},
     fromBuffer (encodeVarOctetString m128))
  = (Throw ParseError,
     ({| modulus := Some m128; signature := Some s129 |}, [])).
Proof.
  apply (@parsePayload_keeps_modulus_on_failure
           {| modulus := None; signature := Some s129 |}
           (fromBuffer (encodeVarOctetString m128)) [] [] m128 ParseError).
  - reflexivity.
  - exact ValidModulus_m128.
  - reflexivity.
Defined.

(** [parsePayload] reads the two strings and no more: what follows them
    is left in the reader, and whatever the object held is replaced. *)
Theorem parsePayload_leaves_rest (this0 : t) (m s extra : Buffer) :
  ValidModulus m ->
  (N.of_nat (length s) < 2 ^ 1016)%N ->
  parsePayload
    (this0,
     fromBuffer (encodeVarOctetString m ++ encodeVarOctetString s ++ extra))
  = (Ok tt, ({| modulus := Some m; signature := Some s |}, extra)).
Proof.
  intros Hm Hs. rewrite parsePayload_run. unfold fromBuffer.
  rewrite readVarOctetString_encode
    by (apply small_length_lt; destruct Hm; lia).
  rewrite setPublicModulus_valid by assumption.
  rewrite readVarOctetString_encode by assumption. reflexivity.
Qed.

Lemma parsePayload_leaves_rest_witness :
  parsePayload
    (constructor,
     fromBuffer (encodeVarOctetString m128 ++ encodeVarOctetString s128
                 ++ [xff]))
  = (Ok tt, ({| modulus := Some m128; signature := Some s128 |}, [xff])).
Proof.
  apply (@parsePayload_leaves_rest constructor m128 s128 [xff]).
  - exact ValidModulus_m128.
  - apply small_length_lt. unfold s128. rewrite repeat_length. lia.
Defined.

Section Primitives.

Variable rsa_sign : string -> Buffer -> Result Buffer.
Variable rsa_verify : option Buffer -> Buffer -> option Buffer -> Result bool.
Variable modulusFromPrivateKey : string -> Result Buffer.

(** With the modulus set, [sign] never replaces it and does not look at
    the modulus of the key: it stores what the signer returns, or throws
    what the signer throws and changes nothing. *)
Theorem sign_keeps_set_modulus (message : Buffer) (privateKey : string)
    (this : t) (m0 : Buffer) :
  modulus this = Some m0 ->
  sign rsa_sign modulusFromPrivateKey message privateKey this
  = match rsa_sign privateKey message with
    | Ok s => (Ok tt, {| modulus := Some m0; signature := Some s |})
    | Throw e => (Throw e, this)
    end.
Proof.
  intros Hm. unfold sign, bind, get, ret, liftR, put. rewrite Hm.
  destruct (rsa_sign privateKey message); [rewrite Hm|]; reflexivity.
Qed.

(** With the modulus unset, a key whose modulus cannot be extracted or
    is not one that [setPublicModulus] accepts makes [sign] throw before
    the signer is called: both fields stay unset. *)
Theorem sign_rejects_key_modulus (message : Buffer) (privateKey : string)
    (this : t) :
  modulus this = None ->
  (forall e, modulusFromPrivateKey privateKey = Throw e ->
     sign rsa_sign modulusFromPrivateKey message privateKey this
     = (Throw e, this)) /\
  (forall m, modulusFromPrivateKey privateKey = Ok m -> ~ ValidModulus m ->
     sign rsa_sign modulusFromPrivateKey message privateKey this
     = (Throw Error, this)).
Proof.
  intros Hn. split.
  - intros e He. unfold sign, bind, get, liftR. rewrite Hn, He. reflexivity.
  - intros m Hk Hm. unfold sign, bind, get, liftR. rewrite Hn, Hk.
    rewrite setPublicModulus_invalid by assumption. reflexivity.
Qed.

(** [sign] is not atomic: with the modulus unset and an acceptable
    modulus in the key, a signer that throws leaves the extracted
    modulus stored, with the signature as it was. *)
Theorem sign_keeps_extracted_modulus (message : Buffer) (privateKey : string)
    (this : t) (m : Buffer) (e : Exn) :
  modulus this = None ->
  modulusFromPrivateKey privateKey = Ok m -> ValidModulus m ->
  rsa_sign privateKey message = Throw e ->
  sign rsa_sign modulusFromPrivateKey message privateKey this
  = (Throw e, {| modulus := Some m; signature := signature this |}).
Proof.
  intros Hn Hk Hm He. unfold sign, bind, get, liftR. rewrite Hn, Hk.
  rewrite setPublicModulus_valid by assumption. rewrite He. reflexivity.
Qed.

(** What a successful [sign] on a fresh fulfillment guarantees: the
    modulus is the one extracted from the key and is acceptable, the
    signature is the signer's, and [validate] then asks the verifier
    about exactly this modulus and this signature: it returns [true] on
    a true answer, throws [ValidationError] on a false one, and passes
    on what the verifier throws. *)
Theorem sign_then_validate (message : Buffer) (privateKey : string)
    (this' : t) :
  sign rsa_sign modulusFromPrivateKey message privateKey constructor
  = (Ok tt, this') ->
  exists m s,
    modulusFromPrivateKey privateKey = Ok m /\ ValidModulus m /\
    rsa_sign privateKey message = Ok s /\
    this' = {| modulus := Some m; signature := Some s |} /\
    forall message',
      validate rsa_verify (JsBuffer message') this'
      = match rsa_verify (Some m) message' (Some s) with
        | Ok true => Ok true
        | Ok false => Throw ValidationError
        | Throw e => Throw e
        end.
Proof.
  unfold sign, bind, get, liftR. simpl.
  destruct (modulusFromPrivateKey privateKey) as [m|e]; [|discriminate].
  unfold setPublicModulus, bind, get, put, throw.
  destruct (hasLeadingZero m) eqn:Hz; [discriminate|].
  destruct (lengthOutOfRange m) eqn:Hl; [discriminate|].
  destruct (rsa_sign privateKey message) as [s|e]; [|discriminate].
  simpl. intros H. exists m, s.
  split; [reflexivity|]. split.
  { split; [apply hasLeadingZero_false|apply lengthOutOfRange_false];
      assumption. }
  split; [reflexivity|].
  assert (Hthis : this' = {| modulus := Some m; signature := Some s |})
    by congruence.
  split; [exact Hthis|].
  intros message'. rewrite Hthis. unfold validate. simpl.
  destruct (rsa_verify (Some m) message' (Some s)) as [[|]|e]; reflexivity.
Qed.

End Primitives.

Lemma sign_keeps_set_modulus_witness :
  sign (fun _ _ => Ok s129) (fun _ => Throw Error) [] EmptyString
    {| modulus := Some m128; signature := None |}
  = (Ok tt, {| modulus := Some m128; signature := Some s129 |}).
Proof.
  exact (@sign_keeps_set_modulus (fun _ _ => Ok s129) (fun _ => Throw Error)
           [] EmptyString {| modulus := Some m128; signature := None |}
           m128 eq_refl).
Defined.

Lemma sign_keeps_extracted_modulus_witness :
  sign (fun _ _ => Throw Error) (fun _ => Ok m128) [] EmptyString constructor
  = (Throw Error, {| modulus := Some m128; signature := None |}).
Proof.
  exact (@sign_keeps_extracted_modulus (fun _ _ => Throw Error)
           (fun _ => Ok m128) [] EmptyString constructor m128 Error
           eq_refl eq_refl ValidModulus_m128 eq_refl).
Defined.

Lemma sign_rejects_key_modulus_witness :
  sign (fun _ _ => Ok s128) (fun _ => Ok [x00; x01]) [] EmptyString constructor
  = (Throw Error, constructor).
Proof.
  apply (proj2 (@sign_rejects_key_modulus (fun _ _ => Ok s128)
                  (fun _ => Ok [x00; x01]) [] EmptyString constructor
                  eq_refl) [x00; x01]).
  - reflexivity.
  - intros [Hz _]. exact (Hz [x01] eq_refl).
Defined.

Lemma sign_then_validate_witness :
  exists m s,
    Ok m128 = Ok m /\ ValidModulus m /\ Ok s128 = Ok s /\
    {| modulus := Some m128; signature := Some s128 |}
    = {| modulus := Some m; signature := Some s |} /\
    forall message',
      validate RsaVerifierSample.refusingVerify (JsBuffer message')
        {| modulus := Some m128; signature := Some s128 |}
      = match RsaVerifierSample.refusingVerify (Some m) message' (Some s) with
        | Ok true => Ok true
        | Ok false => Throw ValidationError
        | Throw e => Throw e
        end.
Proof.
  exact (@sign_then_validate (fun _ _ => Ok s128)
           RsaVerifierSample.refusingVerify
           (fun _ => Ok m128) [] EmptyString
           {| modulus := Some m128; signature := Some s128 |} eq_refl).
Defined.

End RsaStepFacts.

(** ** Ed25519: parsing, signing and the sizes of the fields *)

Module Ed25519StepFacts.
Import Ed25519 Ed25519Calls OerFacts.

Lemma read_enough (n : nat) (r : Reader) :
  n <= length r -> read n r = (Ok (firstn n r), skipn n r).
Proof.
  intros H. unfold read.
  replace (n <=? length r)%nat with true
    by (symmetry; apply Nat.leb_le; exact H).
  reflexivity.
Qed.

Lemma read_short (n : nat) (r : Reader) :
  length r < n -> read n r = (Throw ParseError, r).
Proof.
  intros H. unfold read.
  replace (n <=? length r)%nat with false
    by (symmetry; apply Nat.leb_gt; exact H).
  reflexivity.
Qed.

Lemma ed25519_parsePayload_run (this0 : t) (r : Reader) :
  parsePayload (this0, r)
  = match read 32 r with
    | (Throw e, r1) => (Throw e, (this0, r1))
    | (Ok k, r1) =>
        match setPublicKey (JsBuffer k) this0 with
        | (Throw e, this1) => (Throw e, (this1, r1))
        | (Ok _, this1) =>
            match read 64 r1 with
            | (Throw e, r2) => (Throw e, (this1, r2))
            | (Ok s, r2) =>
                match setSignature (JsBuffer s) this1 with
                | (res, this2) => (res, (this2, r2))
                end
            end
        end
    end.
Proof.
  unfold parsePayload, bind, readOctetString, PUBKEY_LENGTH, SIGNATURE_LENGTH.
  rewrite RsaFacts.onSnd_run.
  destruct (read 32 r) as [[k|e] r1]; cbn [fst snd]; [|reflexivity].
  rewrite RsaFacts.onFst_run.
  destruct (setPublicKey (JsBuffer k) this0) as [[u|e] this1];
    cbn [fst snd]; [|reflexivity].
  rewrite RsaFacts.onSnd_run.
  destruct (read 64 r1) as [[s|e] r2]; cbn [fst snd]; [|reflexivity].
  rewrite RsaFacts.onFst_run.
  destruct (setSignature (JsBuffer s) this1); reflexivity.
Qed.

Lemma setPublicKey_32 (k : Buffer) (this : t) :
  length k = 32 ->
  setPublicKey (JsBuffer k) this
  = (Ok tt, {| publicKey := Some k; signature := signature this |}).
Proof. intros H. unfold setPublicKey. rewrite H. reflexivity. Qed.

Lemma setPublicKey_not_32 (k : Buffer) (this : t) :
  length k <> 32 -> setPublicKey (JsBuffer k) this = (Throw Error, this).
Proof.
  intros H. unfold setPublicKey.
  apply Nat.eqb_neq in H. rewrite H. reflexivity.
Qed.

Lemma setSignature_64 (s : Buffer) (this : t) :
  length s = 64 ->
  setSignature (JsBuffer s) this
  = (Ok tt, {| publicKey := publicKey this; signature := Some s |}).
Proof. intros H. unfold setSignature. rewrite H. reflexivity. Qed.

Lemma length_firstn_le {A} (n : nat) (l : list A) :
  n <= length l -> length (firstn n l) = n.
Proof. intros H. rewrite length_firstn. lia. Qed.

Lemma parse_under_32 (this0 : t) (r : Reader) :
  length r < 32 ->
  parsePayload (this0, r) = (Throw ParseError, (this0, r)).
Proof.
  intros H. rewrite ed25519_parsePayload_run.
  rewrite read_short by lia. reflexivity.
Qed.

Lemma parse_under_96 (this0 : t) (r : Reader) :
  32 <= length r < 96 ->
  parsePayload (this0, r)
  = (Throw ParseError,
     ({| publicKey := Some (firstn 32 r); signature := signature this0 |},
      skipn 32 r)).
Proof.
  intros H. rewrite ed25519_parsePayload_run.
  rewrite read_enough by lia.
  rewrite setPublicKey_32 by (apply length_firstn_le; lia).
  rewrite read_short by (rewrite length_skipn; lia).
  reflexivity.
Qed.

Lemma parse_from_96 (this0 : t) (r : Reader) :
  96 <= length r ->
  parsePayload (this0, r)
  = (Ok tt,
     ({| publicKey := Some (firstn 32 r);
         signature := Some (firstn 64 (skipn 32 r)) |},
      skipn 96 r)).
Proof.
  intros H. rewrite ed25519_parsePayload_run.
  rewrite read_enough by lia.
  rewrite setPublicKey_32 by (apply length_firstn_le; lia).
  rewrite read_enough by (rewrite length_skipn; lia).
  rewrite setSignature_64
    by (apply length_firstn_le; rewrite length_skipn; lia).
  rewrite skipn_skipn. reflexivity.
Qed.

(** What [parsePayload] does is decided by the number of octets left in
    the reader.  Under 32 it throws and changes nothing; from 32 to 95
    it throws after it has replaced the public key; from 96 on it
    stores the first 32 octets as the key and the next 64 as the
    signature and leaves the remainder unread. *)
Theorem parsePayload_by_length (this0 : t) (r : Reader) :
  (length r < 32 ->
   parsePayload (this0, r) = (Throw ParseError, (this0, r))) /\
  (32 <= length r < 96 ->
   parsePayload (this0, r)
   = (Throw ParseError,
      ({| publicKey := Some (firstn 32 r); signature := signature this0 |},
       skipn 32 r))) /\
  (96 <= length r ->
   parsePayload (this0, r)
   = (Ok tt,
      ({| publicKey := Some (firstn 32 r);
          signature := Some (firstn 64 (skipn 32 r)) |},
       skipn 96 r))).
Proof.
  split; [|split]; intros H.
  - apply parse_under_32. exact H.
  - apply parse_under_96. exact H.
  - apply parse_from_96. exact H.
Qed.

Lemma parsePayload_by_length_witness :
  parsePayload (constructor, [x01])
  = (Throw ParseError, (constructor, [x01])) /\
  parsePayload (constructor, k32)
  = (Throw ParseError,
     ({| publicKey := Some k32; signature := None |}, [])) /\
  parsePayload (constructor, k32 ++ s64 ++ [xff])
  = (Ok tt, ({| publicKey := Some k32; signature := Some s64 |}, [xff])).
Proof.
  split; [|split].
  - apply (proj1 (parsePayload_by_length constructor [x01])). simpl. lia.
  - apply (proj1 (proj2 (parsePayload_by_length constructor k32))).
    simpl. lia.
  - apply (proj2 (proj2 (parsePayload_by_length constructor
                           (k32 ++ s64 ++ [xff])))).
    simpl. lia.
Defined.

(** Serializing what was parsed gives back the 96 octets that were
    read: the payload that a successful [parsePayload] consumed is the
    payload [writePayload] writes. *)
Theorem serialize_after_parse (this0 this : t) (r rest : Reader) :
  parsePayload (this0, r) = (Ok tt, (this, rest)) ->
  serializePayload this = Ok (firstn 96 r) /\ r = firstn 96 r ++ rest.
Proof.
  intros H.
  destruct (Nat.lt_ge_cases (length r) 96) as [Hlt|Hge].
  - exfalso. destruct (Nat.lt_ge_cases (length r) 32) as [Hlt'|Hge'].
    + rewrite parse_under_32 in H by assumption. discriminate H.
    + rewrite parse_under_96 in H by lia. discriminate H.
  - rewrite parse_from_96 in H by assumption.
    assert (Hthis : this = {| publicKey := Some (firstn 32 r);
                              signature := Some (firstn 64 (skipn 32 r)) |})
      by congruence.
    assert (Hrest : rest = skipn 96 r) by congruence.
    subst this rest. split.
    + rewrite Ed25519Facts.ed25519_write.
      * f_equal.
        rewrite <- (firstn_skipn 32 (firstn 96 r)).
        rewrite firstn_firstn, skipn_firstn_comm. reflexivity.
      * apply length_firstn_le. lia.
      * apply length_firstn_le. rewrite length_skipn. lia.
    + symmetry. apply firstn_skipn.
Qed.

Lemma serialize_after_parse_witness :
  serializePayload {| publicKey := Some k32; signature := Some s64 |}
  = Ok (firstn 96 (k32 ++ s64 ++ [xff])) /\
  k32 ++ s64 ++ [xff] = firstn 96 (k32 ++ s64 ++ [xff]) ++ [xff].
Proof.
  exact (@serialize_after_parse constructor
           {| publicKey := Some k32; signature := Some s64 |}
           (k32 ++ s64 ++ [xff]) [xff] eq_refl).
Defined.

Section Libraries.

Variable ed25519 : option NativeLib.
Variable nacl : NaclLib.

Lemma sign_seed_not_32 (msg seed : Buffer) (this : t) :
  length seed <> 32 ->
  sign ed25519 nacl (JsBuffer msg) (JsBuffer seed) this = (Throw Error, this).
Proof.
  intros Hl. unfold sign. apply Nat.eqb_neq in Hl. rewrite Hl. reflexivity.
Qed.

Lemma sign_key_32 (msg seed : Buffer) (this : t) :
  length seed = 32 ->
  length (libraryKey ed25519 nacl seed) = 32 ->
  sign ed25519 nacl (JsBuffer msg) (JsBuffer seed) this
  = (Ok tt, {| publicKey := Some (libraryKey ed25519 nacl seed);
               signature := Some (librarySignature ed25519 nacl msg seed) |}).
Proof.
  intros Hs. unfold sign, libraryKey, librarySignature. rewrite Hs.
  change (negb (32 =? 32)%nat) with false. cbv iota.
  destruct ed25519 as [lib|]; intros Hk; unfold bind;
    rewrite setPublicKey_32 by assumption; reflexivity.
Qed.

Lemma sign_key_not_32 (msg seed : Buffer) (this : t) :
  length seed = 32 ->
  length (libraryKey ed25519 nacl seed) <> 32 ->
  sign ed25519 nacl (JsBuffer msg) (JsBuffer seed) this = (Throw Error, this).
Proof.
  intros Hs. unfold sign, libraryKey, librarySignature. rewrite Hs.
  change (negb (32 =? 32)%nat) with false. cbv iota.
  destruct ed25519 as [lib|]; intros Hk; unfold bind;
    rewrite setPublicKey_not_32 by assumption; reflexivity.
Qed.

(** [sign] checks its arguments in a fixed order and before anything
    else: a message that is not a buffer gives [MissingDataError]
    whatever the key is, then a key that is not a buffer gives
    [TypeError], then a key that has not 32 octets gives [Error]; in all
    three cases the fulfillment is unchanged. *)
Theorem sign_checks_arguments (message privateKey : JsValue) (this : t) :
  (isBuffer message = false ->
   sign ed25519 nacl message privateKey this = (Throw MissingDataError, this))
  /\
  (isBuffer message = true -> isBuffer privateKey = false ->
   sign ed25519 nacl message privateKey this = (Throw TypeError, this)) /\
  (forall seed, isBuffer message = true -> privateKey = JsBuffer seed ->
   length seed <> 32 ->
   sign ed25519 nacl message privateKey this = (Throw Error, this)).
Proof.
  split; [|split].
  - intros H. destruct message; try discriminate H; reflexivity.
  - intros Hm Hk. destruct message; try discriminate Hm.
    destruct privateKey; try discriminate Hk; reflexivity.
  - intros seed Hm -> Hl. destruct message; try discriminate Hm.
    apply sign_seed_not_32. exact Hl.
Qed.

(** With a 32-octet seed, [sign] stores the key and the signature of
    the library when that key has 32 octets, replacing both fields; it
    throws [Error] and stores nothing when the library's key has another
    size. *)
Theorem sign_outcome (msg seed : Buffer) (this : t) :
  length seed = 32 ->
  (length (libraryKey ed25519 nacl seed) = 32 ->
   sign ed25519 nacl (JsBuffer msg) (JsBuffer seed) this
   = (Ok tt, {| publicKey := Some (libraryKey ed25519 nacl seed);
                signature := Some (librarySignature ed25519 nacl msg seed) |})) /\
  (length (libraryKey ed25519 nacl seed) <> 32 ->
   sign ed25519 nacl (JsBuffer msg) (JsBuffer seed) this
   = (Throw Error, this)).
Proof.
  intros Hs. split; intros Hk.
  - apply sign_key_32; assumption.
  - apply sign_key_not_32; assumption.
Qed.

(** The hash of the condition does not depend on the message that was
    signed: signing two messages with the same key, from the same
    state, gives fulfillments with the same [generateHash]. *)
Theorem hash_independent_of_message (msg1 msg2 : Buffer)
    (privateKey : JsValue) (this : t) :
  generateHash
    (snd (sign ed25519 nacl (JsBuffer msg1) privateKey this))
  = generateHash
      (snd (sign ed25519 nacl (JsBuffer msg2) privateKey this)).
Proof.
  unfold sign. destruct privateKey as [seed| | | |]; try reflexivity.
  destruct (negb (length seed =? 32)%nat); [reflexivity|].
  destruct ed25519 as [lib|]; unfold bind.
  - destruct (setPublicKey (JsBuffer (kp_publicKey (MakeKeypair lib seed)))
                this) as [[u|e] this1]; reflexivity.
  - destruct (setPublicKey (JsBuffer (kp_publicKey (fromSeed nacl seed)))
                this) as [[u|e] this1]; reflexivity.
Qed.

(** [validate] returns only [true], and does so exactly when the
    library returns [true]; a [false] from the library becomes
    [ValidationError], what the library throws is passed on, and a
    message that is not a buffer is a [TypeError] before the library is
    asked. *)
Theorem validate_outcomes (message : JsValue) (this : t) :
  (isBuffer message = false ->
   validate ed25519 nacl message this = Throw TypeError) /\
  (forall r, validate ed25519 nacl message this = Ok r -> r = true) /\
  (forall msg, message = JsBuffer msg ->
     (validate ed25519 nacl message this = Ok true <->
      verdict ed25519 nacl msg this = Ok true) /\
     (verdict ed25519 nacl msg this = Ok false ->
      validate ed25519 nacl message this = Throw ValidationError) /\
     (forall e, verdict ed25519 nacl msg this = Throw e ->
      validate ed25519 nacl message this = Throw e)).
Proof.
  split; [|split].
  - intros H. destruct message; try discriminate H; reflexivity.
  - intros r. unfold validate. destruct message as [msg| | | |];
      try discriminate.
    destruct ed25519 as [lib|].
    + destruct (Verify lib msg (signature this) (publicKey this))
        as [[|]|e]; congruence.
    + destruct (detached_verify nacl msg (signature this) (publicKey this))
        as [[|]|e]; congruence.
  - intros msg ->. unfold validate, verdict.
    destruct ed25519 as [lib|].
    + destruct (Verify lib msg (signature this) (publicKey this))
        as [[|]|e]; repeat split; congruence.
    + destruct (detached_verify nacl msg (signature this) (publicKey this))
        as [[|]|e]; repeat split; congruence.
Qed.

End Libraries.

(** The reference library gives keys of 32 and signatures of 64 octets,
    whatever the input. *)
Lemma length_le_fixed (n : nat) : forall v,
  length (Ed25519Ref.le_fixed n v) = n.
Proof.
  induction n as [|n IH]; intros v; simpl; [reflexivity|].
  rewrite IH. reflexivity.
Qed.

Lemma length_publicKeyOfSeed (seed : Buffer) :
  length (Ed25519Ref.publicKeyOfSeed seed) = 32.
Proof. apply length_le_fixed. Qed.

Lemma length_signDetached (msg seed pk : Buffer) :
  length (Ed25519Ref.signDetached msg seed pk) = 64.
Proof.
  unfold Ed25519Ref.signDetached. cbv zeta.
  rewrite length_app. unfold Ed25519Ref.encodePoint. cbv zeta.
  rewrite !length_le_fixed. reflexivity.
Qed.

Lemma reference_SignaturesHave64 : SignaturesHave64 None Ed25519Ref.nacl.
Proof.
  split.
  - intros lib H. discriminate H.
  - intros msg sk.
    change (length (Ed25519Ref.signDetached msg (firstn 32 sk) (skipn 32 sk))
            = 64).
    apply length_signDetached.
Qed.

Lemma sign_checks_arguments_witness :
  sign None Ed25519Ref.nacl JsNull JsNull constructor
  = (Throw MissingDataError, constructor) /\
  sign None Ed25519Ref.nacl (JsBuffer []) (JsString EmptyString) constructor
  = (Throw TypeError, constructor) /\
  sign None Ed25519Ref.nacl (JsBuffer []) (JsBuffer [x00]) constructor
  = (Throw Error, constructor).
Proof.
  split; [|split].
  - apply (proj1 (sign_checks_arguments None Ed25519Ref.nacl JsNull JsNull
                    constructor)).
    reflexivity.
  - apply (proj1 (proj2 (sign_checks_arguments None Ed25519Ref.nacl
                           (JsBuffer []) (JsString EmptyString) constructor)));
      reflexivity.
  - apply (proj2 (proj2 (sign_checks_arguments None Ed25519Ref.nacl
                           (JsBuffer []) (JsBuffer [x00]) constructor))
             [x00]); [reflexivity|reflexivity|].
    simpl. lia.
Defined.

Lemma sign_outcome_witness :
  sign None Ed25519Ref.nacl (JsBuffer []) (JsBuffer ZeroKeyVector.key)
    constructor
  = (Ok tt,
     {| publicKey := Some (libraryKey None Ed25519Ref.nacl ZeroKeyVector.key);
        signature :=
          Some (librarySignature None Ed25519Ref.nacl [] ZeroKeyVector.key) |}).
Proof.
  apply (proj1 (@sign_outcome None Ed25519Ref.nacl [] ZeroKeyVector.key
                  constructor eq_refl)).
  exact (length_publicKeyOfSeed ZeroKeyVector.key).
Defined.

Lemma validate_outcomes_witness :
  validate None Ed25519Ref.nacl JsUndefined constructor = Throw TypeError /\
  validate None Ed25519Ref.nacl (JsBuffer []) constructor
  = Throw ValidationError.
Proof.
  pose proof (validate_outcomes None Ed25519Ref.nacl) as H.
  split.
  - apply (proj1 (H JsUndefined constructor)). reflexivity.
  - apply (proj1 (proj2 (proj2 (proj2 (H (JsBuffer []) constructor))
                           [] eq_refl))).
    reflexivity.
Defined.

(** *** Sizes of the fields of every reachable fulfillment *)

Section Reachable.

Variable ed25519 : option NativeLib.
Variable nacl : NaclLib.

Lemma setPublicKey_KeyOk v : preserves KeyOk (setPublicKey v).
Proof.
  intros this H. destruct v as [k| | | |]; try exact H.
  unfold setPublicKey.
  destruct (length k =? 32)%nat eqn:E; [|exact H].
  intros k' Hk'. simpl in Hk'. apply Nat.eqb_eq in E. congruence.
Qed.

Lemma setPublicKey_SignatureOk v :
  preserves SignatureOk (setPublicKey v).
Proof.
  intros this H. destruct v as [k| | | |]; try exact H.
  unfold setPublicKey. destruct (length k =? 32)%nat; exact H.
Qed.

Lemma setSignature_KeyOk v : preserves KeyOk (setSignature v).
Proof.
  intros this H. destruct v as [s| | | |]; try exact H.
  unfold setSignature. destruct (length s =? 64)%nat; exact H.
Qed.

Lemma setSignature_SignatureOk v :
  preserves SignatureOk (setSignature v).
Proof.
  intros this H. destruct v as [s| | | |]; try exact H.
  unfold setSignature.
  destruct (length s =? 64)%nat eqn:E; [|exact H].
  intros s' Hs'. simpl in Hs'. apply Nat.eqb_eq in E. congruence.
Qed.

Lemma parsePayload_sizes (P : t -> Prop) :
  (forall v, preserves P (setPublicKey v)) ->
  (forall v, preserves P (setSignature v)) ->
  preserves (fun s : t * Reader => P (fst s)) parsePayload.
Proof.
  intros Hk Hs. unfold parsePayload.
  apply RsaFacts.preserves_bind; [apply RsaFacts.preserves_onSnd|]. intros k.
  apply RsaFacts.preserves_bind; [apply RsaFacts.preserves_onFst, Hk|].
  intros _.
  apply RsaFacts.preserves_bind; [apply RsaFacts.preserves_onSnd|]. intros s.
  apply RsaFacts.preserves_onFst, Hs.
Qed.

Lemma sign_state (msg seed : Buffer) (this : t) :
  snd (sign ed25519 nacl (JsBuffer msg) (JsBuffer seed) this) = this \/
  snd (sign ed25519 nacl (JsBuffer msg) (JsBuffer seed) this)
  = {| publicKey := Some (libraryKey ed25519 nacl seed);
       signature := Some (librarySignature ed25519 nacl msg seed) |} /\
  length (libraryKey ed25519 nacl seed) = 32.
Proof.
  destruct (Nat.eq_dec (length seed) 32) as [Hs|Hs].
  - destruct (Nat.eq_dec (length (libraryKey ed25519 nacl seed)) 32)
      as [Hk|Hk].
    + right. rewrite (@sign_key_32 ed25519 nacl msg seed this Hs Hk).
      split; [reflexivity|exact Hk].
    + left. rewrite (@sign_key_not_32 ed25519 nacl msg seed this Hs Hk).
      reflexivity.
  - left. rewrite (@sign_seed_not_32 ed25519 nacl msg seed this Hs).
    reflexivity.
Qed.

Lemma sign_unchanged_on_bad_arguments (message privateKey : JsValue)
    (this : t) :
  (forall msg seed, message = JsBuffer msg -> privateKey = JsBuffer seed ->
     False) ->
  snd (sign ed25519 nacl message privateKey this) = this.
Proof.
  intros H. destruct message as [msg| | | |]; try reflexivity.
  destruct privateKey as [seed| | | |]; try reflexivity.
  exfalso. exact (H msg seed eq_refl eq_refl).
Qed.

Lemma runCall_KeyOk this c : KeyOk this -> KeyOk (runCall ed25519 nacl this c).
Proof.
  intros H. destruct c as [v|v|reader|message privateKey]; simpl.
  - apply setPublicKey_KeyOk. exact H.
  - apply setSignature_KeyOk. exact H.
  - pose proof (parsePayload_sizes setPublicKey_KeyOk setSignature_KeyOk)
      as Hp.
    exact (Hp (this, reader) H).
  - destruct message as [msg| | | |]; try exact H.
    destruct privateKey as [seed| | | |]; try exact H.
    destruct (sign_state msg seed this) as [E|[E Hk]]; rewrite E.
    + exact H.
    + intros k Hk'. simpl in Hk'. congruence.
Qed.

Lemma runCall_SignatureOk this c :
  SignaturesHave64 ed25519 nacl \/ isSign c = false ->
  SignatureOk this -> SignatureOk (runCall ed25519 nacl this c).
Proof.
  intros Hlib H. destruct c as [v|v|reader|message privateKey]; simpl.
  - apply setPublicKey_SignatureOk. exact H.
  - apply setSignature_SignatureOk. exact H.
  - pose proof (parsePayload_sizes setPublicKey_SignatureOk
                  setSignature_SignatureOk) as Hp.
    exact (Hp (this, reader) H).
  - destruct Hlib as [[Hnative Hnacl]|Hno]; [|discriminate Hno].
    destruct message as [msg| | | |]; try exact H.
    destruct privateKey as [seed| | | |]; try exact H.
    destruct (sign_state msg seed this) as [E|[E Hk]]; rewrite E.
    + exact H.
    + intros s Hs. simpl in Hs.
      assert (s = librarySignature ed25519 nacl msg seed) by congruence.
      subst s. unfold librarySignature.
      destruct ed25519 as [lib|].
      * apply (Hnative lib eq_refl).
      * apply Hnacl.
Qed.

Lemma runCalls_sizes (calls : list Call) : forall this0,
  KeyOk this0 ->
  KeyOk (runCalls ed25519 nacl calls this0) /\
  (SignaturesHave64 ed25519 nacl \/ existsb isSign calls = false ->
   SignatureOk this0 ->
   SignatureOk (runCalls ed25519 nacl calls this0)).
Proof.
  induction calls as [|c calls IH]; intros this0 Hk; simpl.
  - split; [exact Hk|]. intros _ Hs. exact Hs.
  - destruct (IH (runCall ed25519 nacl this0 c)
                (@runCall_KeyOk this0 c Hk)) as [IHk IHs].
    split; [exact IHk|]. intros Hlib Hs. apply IHs.
    + destruct Hlib as [Hl|Hno]; [left; exact Hl|].
      right. apply Bool.orb_false_iff in Hno. apply Hno.
    + apply runCall_SignatureOk; [|exact Hs].
      destruct Hlib as [Hl|Hno]; [left; exact Hl|].
      right. apply Bool.orb_false_iff in Hno. apply Hno.
Qed.

Lemma fresh_sizes : KeyOk constructor /\ SignatureOk constructor.
Proof. split; intros x H; discriminate H. Qed.

(** After any sequence of [setPublicKey], [setSignature], [parsePayload]
    and [sign] calls, returned from or thrown out of, a public key that
    is set has 32 octets; and a signature that is set has 64 octets,
    provided the libraries return signatures of 64 octets or [sign] was
    not among the calls ([sign] stores the library's signature without
    checking its size). *)
Theorem reachable_field_sizes (calls : list Call) :
  let this := runCalls ed25519 nacl calls constructor in
  KeyOk this /\
  (SignaturesHave64 ed25519 nacl \/ existsb isSign calls = false ->
   SignatureOk this).
Proof.
  intros this.
  destruct (runCalls_sizes calls (proj1 fresh_sizes)) as [Hk Hs].
  split; [exact Hk|]. intros Hlib. apply Hs; [exact Hlib|].
  exact (proj2 fresh_sizes).
Qed.

(** A reachable fulfillment with both fields set always serializes, to
    the key followed by the signature: exactly the 96 octets that
    [calculateMaxFulfillmentLength] announces. *)
Theorem reachable_payload_has_96_octets (calls : list Call) (k s : Buffer) :
  let this := runCalls ed25519 nacl calls constructor in
  SignaturesHave64 ed25519 nacl \/ existsb isSign calls = false ->
  publicKey this = Some k -> signature this = Some s ->
  serializePayload this = Ok (k ++ s) /\
  calculateMaxFulfillmentLength this = Ok (N.of_nat (length (k ++ s))).
Proof.
  intros this Hlib Hk Hs.
  destruct (runCalls_sizes calls (proj1 fresh_sizes)) as [HkOk HsOk].
  specialize (HsOk Hlib (proj2 fresh_sizes)).
  pose proof (HkOk k Hk) as Hkl. pose proof (HsOk s Hs) as Hsl.
  assert (Hthis : this = {| publicKey := Some k; signature := Some s |}).
  { destruct this as [k' s']. simpl in Hk, Hs. congruence. }
  rewrite Hthis. split.
  - apply Ed25519Facts.ed25519_write; assumption.
  - rewrite length_app, Hkl, Hsl. reflexivity.
Qed.

End Reachable.

Lemma reachable_field_sizes_witness :
  SignatureOk
    (runCalls None Ed25519Ref.nacl
       [SetPublicKey (JsBuffer k32); SetSignature (JsBuffer s64);
        SetSignature (JsBuffer [x00])] constructor).
Proof.
  apply (proj2 (reachable_field_sizes None Ed25519Ref.nacl
                  [SetPublicKey (JsBuffer k32); SetSignature (JsBuffer s64);
                   SetSignature (JsBuffer [x00])])).
  right. reflexivity.
Defined.

Lemma reachable_payload_has_96_octets_witness :
  serializePayload
    (runCalls None Ed25519Ref.nacl
       [SetSignature (JsBuffer s64); ParsePayload [x00];
        SetPublicKey (JsBuffer k32)] constructor)
  = Ok (k32 ++ s64) /\
  calculateMaxFulfillmentLength
    (runCalls None Ed25519Ref.nacl
       [SetSignature (JsBuffer s64); ParsePayload [x00];
        SetPublicKey (JsBuffer k32)] constructor)
  = Ok (N.of_nat (length (k32 ++ s64))).
Proof.
  apply (@reachable_payload_has_96_octets None Ed25519Ref.nacl
           [SetSignature (JsBuffer s64); ParsePayload [x00];
            SetPublicKey (JsBuffer k32)] k32 s64).
  - right. reflexivity.
  - reflexivity.
  - reflexivity.
Defined.

End Ed25519StepFacts.

(** ** RSA-SHA-256: the modulus of every reachable fulfillment *)

Module RsaReachableFacts.
Import RsaSha256 RsaFacts RsaCalls.

Section Primitives.

Variable rsa_sign : string -> Buffer -> Result Buffer.
Variable modulusFromPrivateKey : string -> Result Buffer.

Lemma sign_preserves_ModulusOk (message : Buffer) (privateKey : string) :
  preserves ModulusOk
    (sign rsa_sign modulusFromPrivateKey message privateKey).
Proof.
  unfold sign.
  apply preserves_bind; [intros s Hs; exact Hs|]. intros this.
  apply preserves_bind.
  - destruct (modulus this) as [m0|].
    + intros s Hs. exact Hs.
    + apply preserves_bind; [intros s Hs; exact Hs|]. intros m.
      apply setPublicModulus_preserves.
  - intros _. apply preserves_bind; [intros s Hs; exact Hs|]. intros sig.
    intros s Hs m Hm. exact (Hs m Hm).
Qed.

Lemma runCall_ModulusOk (this : t) (c : Call) :
  ModulusOk this ->
  ModulusOk (runCall rsa_sign modulusFromPrivateKey this c).
Proof.
  intros H. destruct c as [v|v|reader|message privateKey]; simpl.
  - apply setPublicModulus_preserves. exact H.
  - apply setSignature_preserves. exact H.
  - pose proof parsePayload_preserves as Hp. exact (Hp (this, reader) H).
  - apply sign_preserves_ModulusOk. exact H.
Qed.

(** No method stores a modulus that [setPublicModulus] would refuse:
    after any sequence of [setPublicModulus], [setSignature],
    [parsePayload] and [sign] calls on a fresh fulfillment, with any
    signer and any key parser, and whether the calls return or throw,
    a modulus that is set has 128 to 512 octets and a first octet that
    is not zero. *)
Theorem reachable_modulus_is_valid (calls : list Call) (m : Buffer) :
  modulus (runCalls rsa_sign modulusFromPrivateKey calls constructor)
  = Some m ->
  (forall rest, m <> x00 :: rest) /\ 128 <= length m <= 512.
Proof.
  assert (Hgen : forall this0, ModulusOk this0 ->
            ModulusOk (runCalls rsa_sign modulusFromPrivateKey calls this0)).
  { induction calls as [|c calls IH]; intros this0 H; simpl.
    - exact H.
    - apply IH, runCall_ModulusOk, H. }
  intros Hm. apply (Hgen constructor); [|exact Hm].
  intros m' H. discriminate H.
Qed.

End Primitives.

Lemma reachable_modulus_is_valid_witness :
  (forall rest, m128 <> x00 :: rest) /\ 128 <= length m128 <= 512.
Proof.
  apply (@reachable_modulus_is_valid (fun _ _ => Ok s129) (fun _ => Ok m128)
           [SetSignature (JsBuffer []); Sign [] EmptyString;
            SetPublicModulus (JsBuffer [x00])] m128).
  reflexivity.
Defined.

End RsaReachableFacts.
